(** * Synapse appservice worker and room-hierarchy admin servlet

    A shallow embedding of

    - [synapse/app/appservice.py]: [AppserviceServer.replicate], the
      replication loop of the appservice worker, and
    - [synapse/rest/admin/room_hierarchy.py]:
      [RemoveHierarchyMemberRestServlet.on_DELETE].

    Python dictionaries are [gmap]s, sets are [gset]s.  Code that can raise
    lives in a small state-and-exception monad which also records the calls
    made to the collaborators (http client, store, handlers, logger). *)

From Stdlib Require Import ZArith List Ascii String Sorted Lia.
From stdpp Require Import gmap strings list fin_maps.

Local Open Scope string_scope.
Local Open Scope Z_scope.
Local Open Scope list_scope.

(** ** Python exceptions and Twisted deferreds *)

Inductive exn : Type :=
| KeyError (key : string)
| TypeError
| AttributeError
| SynapseError (code : Z) (msg : string)
| OtherError (msg : string).

(** How a piece of generator code leaves off: it returns, it raises, or it
    is suspended at a [yield] on a deferred that has not fired. *)
Inductive outcome (A : Type) : Type :=
| Returned (a : A)
| Raised (e : exn)
| Suspended.
Arguments Returned {A} a.
Arguments Raised {A} e.
Arguments Suspended {A}.

(** A deferred as its receiver finds it. *)
Inductive deferred (A : Type) : Type :=
| Fired (a : A)
| Failed (e : exn)
| Pending.
Arguments Fired {A} a.
Arguments Failed {A} e.
Arguments Pending {A}.

(** ** JSON values, as [get_json] decodes them *)

#[local] Set Warnings "-register-all".

Inductive json : Type :=
| JNull
| JBool (b : bool)
| JNum (n : Z)
| JStr (s : string)
| JArr (items : list json)
| JObj (fields : gmap string json).

(** Python truth value: what [if stream:] tests. *)
Definition truthy (v : json) : bool :=
  match v with
  | JNull => false
  | JBool b => b
  | JNum n => negb (n =? 0)%Z
  | JStr s => negb (String.eqb s EmptyString)
  | JArr items => match items with [] => false | _ => true end
  | JObj fields => negb (bool_decide (fields = ∅))
  end.

(** [d.get(key)]: only dictionaries have the method; a missing key gives
    [None]. *)
Definition py_get (d : json) (key : string) : outcome json :=
  match d with
  | JObj fields => Returned (default JNull (fields !! key))
  | _ => Raised AttributeError
  end.

(** [d[key]] with a string key. *)
Definition py_getitem (d : json) (key : string) : outcome json :=
  match d with
  | JObj fields =>
      match fields !! key with
      | Some v => Returned v
      | None => Raised (KeyError key)
      end
  | _ => Raised TypeError
  end.

#[local] Set Warnings "register-all".

(** ** The monad of the worker's code

    A computation reads and updates a state [W], says how it leaves off
    and lists the collaborator calls it made, oldest first. *)

Module Mon.

Section Monad.
Context {W E : Type}.

Definition M (A : Type) : Type := W -> outcome A * W * list E.

Definition ret {A} (a : A) : M A := fun w => (Returned a, w, []).

Definition bind {A B} (m : M A) (k : A -> M B) : M B :=
  fun w =>
    match m w with
    | (Returned a, w1, t1) =>
        match k a w1 with (r, w2, t2) => (r, w2, t1 ++ t2) end
    | (Raised e, w1, t1) => (Raised e, w1, t1)
    | (Suspended, w1, t1) => (Suspended, w1, t1)
    end.

Definition raise {A} (e : exn) : M A := fun w => (Raised e, w, []).
Definition lift {A} (r : outcome A) : M A := fun w => (r, w, []).
Definition emit (e : E) : M unit := fun w => (Returned tt, w, [e]).
Definition get : M W := fun w => (Returned w, w, []).
Definition put (w : W) : M unit := fun _ => (Returned tt, w, []).

(** [try: body except: handler] with a bare [except], which catches
    every exception. *)
Definition try_except {A} (body : M A) (handler : exn -> M A) : M A :=
  fun w =>
    match body w with
    | (Raised e, w1, t1) =>
        match handler e w1 with (r, w2, t2) => (r, w2, t1 ++ t2) end
    | other => other
    end.

(** [yield d] inside an [inlineCallbacks] generator whose caller does
    not wait for it. *)
Definition yield_ {A} (d : deferred A) : M A :=
  match d with
  | Fired a => ret a
  | Failed e => raise e
  | Pending => fun w => (Suspended, w, [])
  end.

(** Calling a function decorated with [defer.inlineCallbacks]: the
    generator runs up to its first unfired deferred; whatever it raises
    is stored in the deferred handed back, never raised in the caller. *)
Definition inlineCallbacks {A} (gen : M A) : M (deferred A) :=
  fun w =>
    match gen w with
    | (Returned a, w1, t1) => (Returned (Fired a), w1, t1)
    | (Raised e, w1, t1) => (Returned (Failed e), w1, t1)
    | (Suspended, w1, t1) => (Returned Pending, w1, t1)
    end.

(** [for x in l: acc = f(acc, x)], left as soon as a turn raises. *)
Fixpoint foldM {A B} (f : B -> A -> M B) (acc : B) (l : list A) : M B :=
  match l with
  | [] => ret acc
  | x :: rest => bind (f acc x) (fun acc' => foldM f acc' rest)
  end.
End Monad.

Arguments M : clear implicits.

(** How a run ended, the state it left and the calls it made. *)
Definition ended {W E A} (o : outcome A * W * list E) : outcome A := fst (fst o).
Definition final {W E A} (o : outcome A * W * list E) : W := snd (fst o).
Definition events {W E A} (o : outcome A * W * list E) : list E := snd o.

End Mon.

Declare Scope py_scope.
Delimit Scope py_scope with py.
Notation "x <~ m ;; k" := (Mon.bind m (fun x => k))
  (at level 100, m at next level, right associativity) : py_scope.
Notation "m ;;; k" := (Mon.bind m (fun _ => k))
  (at level 100, right associativity) : py_scope.

(** * [synapse/app/appservice.py] *)

Module Appservice.

Import Mon.
Local Open Scope py_scope.

(** What the worker asks of its datastore ([AppserviceSlaveStore], whose
    mixins are defined outside this file): the two methods the loop calls.
    [process_replication] may raise, and hands back the store as the call
    left it. *)
Class ReplicaStore (S : Type) : Type := {
  stream_positions : S -> gmap string Z;
  process_replication : S -> json -> option exn * S
}.

(** The collaborators reached over the network.  The first argument counts
    the polls answered so far, so that answers may change over time.
    [get_json] tells how long the long-poll was held and how it ended;
    [notify_interested_services] raises at once or hands back a deferred. *)
Record Env : Type := {
  get_json : nat -> string -> gmap string Z -> nat * (exn + json);
  notify_interested_services : nat -> json -> exn + deferred unit
}.

(** Calls made by the loop, in the order made. *)
Inductive event : Type :=
| EvGetJson (url : string) (args : gmap string Z)
| EvGotJson (r : exn + json)
| EvProcessReplication (result : json) (failure : option exn)
| EvNotify (max_stream_id : json)
| EvLogException (msg : string) (url : string)
| EvSleep (seconds : nat).

Record world (S : Type) : Type := World {
  store : S;
  now : nat;
  polls : nat
}.
Arguments World {S} store now polls.
Arguments store {S} w.
Arguments now {S} w.
Arguments polls {S} w.

Section Replicate.
Context {S : Type} `{ReplicaStore S}.
Variable env : Env.
Variable replication_url : string.

Abbreviation M := (Mon.M (world S) event).

Definition of_sum {A} (r : exn + A) : outcome A :=
  match r with inr a => Returned a | inl e => Raised e end.

(** Time passing while the loop is suspended. *)
Definition advance (dur : nat) : M unit :=
  fun w => (Returned tt, World (store w) (now w + dur)%nat (polls w), []).

Definition call_stream_positions : M (gmap string Z) :=
  fun w => (Returned (stream_positions (store w)), w, []).

(** [yield http_client.get_json(url, args=args)]: the loop resumes when
    the request has ended, with its result or with its failure. *)
Definition call_get_json (url : string) (args : gmap string Z) : M json :=
  emit (EvGetJson url args) ;;;
  w <~ get ;;
  let '(dur, r) := get_json env (polls w) url args in
  put (World (store w) (now w + dur)%nat (Datatypes.S (polls w))) ;;;
  emit (EvGotJson r) ;;;
  lift (of_sum r).

Definition call_process_replication (result : json) : M unit :=
  w <~ get ;;
  let '(failure, st) := process_replication (store w) result in
  put (World st (now w) (polls w)) ;;;
  emit (EvProcessReplication result failure) ;;;
  match failure with
  | None => ret tt
  | Some e => raise e
  end.

Definition call_notify (max_stream_id : json) : M (deferred unit) :=
  emit (EvNotify max_stream_id) ;;;
  w <~ get ;;
  match notify_interested_services env (polls w) max_stream_id with
  | inr d => ret d
  | inl e => raise e
  end.

Definition logger_exception (msg url : string) : M unit :=
  emit (EvLogException msg url).

(** [yield sleep(seconds)]. *)
Definition sleep (seconds : nat) : M unit :=
  emit (EvSleep seconds) ;;; advance seconds.

(** The nested generator [replicate(results)]. *)
Definition replicate_results (results : json) : M unit :=
  stream <~ lift (py_get results "events") ;;
  if truthy stream then
    max_stream_id <~ lift (py_getitem stream "position") ;;
    d <~ call_notify max_stream_id ;;
    yield_ d
  else ret tt.

(** One turn of [while True:]. *)
Definition iteration : M unit :=
  try_except
    (args <~ call_stream_positions ;;
     let args := <["timeout" := 30000]> args in
     result <~ call_get_json replication_url args ;;
     call_process_replication result ;;;
     _ <~ inlineCallbacks (replicate_results result) ;;
     ret tt)
    (fun _ =>
       logger_exception "Error replicating from %r" replication_url ;;;
       sleep 30).

(** The first [n] turns of the loop. *)
Fixpoint replicate (n : nat) : M unit :=
  match n with
  | O => ret tt
  | Datatypes.S n' => iteration ;;; replicate n'
  end.

(** The state at the head of each of the first [n] turns. *)
Fixpoint starts (n : nat) (w : world S) : list (world S) :=
  match n with
  | O => []
  | Datatypes.S n' => w :: starts n' (final (iteration w))
  end.
End Replicate.

(** ** Reading a trace *)

Definition requests (t : list event) : list (string * gmap string Z) :=
  omap (fun e => match e with EvGetJson u a => Some (u, a) | _ => None end) t.

Definition received (t : list event) : list json :=
  omap (fun e => match e with EvGotJson (inr r) => Some r | _ => None end) t.

Definition applied (t : list event) : list json :=
  omap (fun e =>
          match e with EvProcessReplication r _ => Some r | _ => None end) t.

Definition notifications (t : list event) : list json :=
  omap (fun e => match e with EvNotify p => Some p | _ => None end) t.

Definition backoffs (t : list event) : list nat :=
  omap (fun e => match e with EvSleep d => Some d | _ => None end) t.

Definition logged (t : list event) : list (string * string) :=
  omap (fun e =>
          match e with EvLogException m u => Some (m, u) | _ => None end) t.


(** ** A datastore to run the loop on

    Modelled from the spec: the slaved stores mixed into
    [AppserviceSlaveStore] are not part of this file.  Following the
    Replica Store contract, the store keeps one position per known stream;
    applying a response looks up each known stream in it, ignores streams
    it does not know, and either advances every position or, when an entry
    is unusable, raises and leaves every position as it was.  A batch whose
    position lies behind the current one is a no-op ([strict = false]) or
    is rejected ([strict = true]). *)

Definition batch_position (result : json) (name : string) : exn + option Z :=
  match py_get result name with
  | Returned stream =>
      if truthy stream then
        match py_getitem stream "position" with
        | Returned (JNum p) => inr (Some p)
        | Returned _ => inl TypeError
        | Raised e => inl e
        | Suspended => inl TypeError
        end
      else inr None
  | Raised e => inl e
  | Suspended => inl TypeError
  end.

Definition advance_stream (strict : bool) (result : json)
    (name : string) (cur : Z) : exn + Z :=
  match batch_position result name with
  | inl e => inl e
  | inr None => inr cur
  | inr (Some p) =>
      if (cur <=? p)%Z then inr p
      else if strict then inl (OtherError "stale batch") else inr cur
  end.

Fixpoint first_failure (strict : bool) (result : json)
    (streams : list (string * Z)) : option exn :=
  match streams with
  | [] => None
  | (name, cur) :: rest =>
      match advance_stream strict result name cur with
      | inl e => Some e
      | inr _ => first_failure strict result rest
      end
  end.

Definition apply_batch (strict : bool) (positions : gmap string Z)
    (result : json) : option exn * gmap string Z :=
  match first_failure strict result (map_to_list positions) with
  | Some e => (Some e, positions)
  | None =>
      (None,
       map_imap (fun name cur =>
                   match advance_stream strict result name cur with
                   | inr p => Some p
                   | inl _ => Some cur
                   end) positions)
  end.

Definition lenient_store : ReplicaStore (gmap string Z) :=
  {| stream_positions := fun st => st;
     process_replication := apply_batch false |}.

Definition strict_store : ReplicaStore (gmap string Z) :=
  {| stream_positions := fun st => st;
     process_replication := apply_batch true |}.

(** ** Contracts a datastore may meet *)

(** A failed apply does not advance any position. *)
Definition failed_apply_keeps_positions (S : Type) `{ReplicaStore S} : Prop :=
  forall st result e st',
    process_replication st result = (Some e, st') ->
    stream_positions st' = stream_positions st.




(** A primary that never answers a poll. *)
Definition unreachable (env : Env) : Prop :=
  forall k url args, exists e, snd (get_json env k url args) = inl e.

(** ** What a turn sends and dispatches *)

(** The arguments the dispatcher is called with for a response. *)
Definition dispatch_args (result : json) : list json :=
  match py_get result "events" with
  | Returned stream =>
      if truthy stream then
        match py_getitem stream "position" with
        | Returned p => [p]
        | _ => []
        end
      else []
  | _ => []
  end.

Definition timeout_args (positions : gmap string Z) : gmap string Z :=
  <["timeout" := 30000]> positions.

Definition log_msg : string := "Error replicating from %r".


(** A turn fails when its request fails (network error, bad status or
    undecodable body all surface as an exception of [get_json]) or when
    the store raises while applying the response. *)
Definition turn_fails {S : Type} `{ReplicaStore S}
    (env : Env) (url : string) (w : world S) : Prop :=
  match get_json env (polls w) url
          (timeout_args (stream_positions (store w))) with
  | (_, inl _) => True
  | (_, inr result) =>
      match process_replication (store w) result with
      | (Some _, _) => True
      | (None, _) => False
      end
  end.

(** ** Scenarios *)

Definition primary_url : string := "http://primary:8008/_synapse/replication".

Definition fresh_worker : world (gmap string Z) :=
  World {[ "events" := 0 ]} 0 0.

Definition events_batch (position : json) (rows : list json) : json :=
  JObj {[ "events" :=
            JObj (<["position" := position]> {[ "rows" := JArr rows ]}) ]}.

Definition five_rows : list json :=
  [JStr "e1"; JStr "e2"; JStr "e3"; JStr "e4"; JStr "e5"].

Definition appservice_down : nat -> json -> exn + deferred unit :=
  fun _ _ => inl (OtherError "appservice endpoint down").

(** Five new events, then a long-poll that times out with nothing new,
    then the primary goes away.  Every dispatch fails. *)
Definition env_five_then_quiet : Env :=
  {| get_json := fun k _ _ =>
       match k with
       | O => (7%nat, inr (events_batch (JNum 5) five_rows))
       | Datatypes.S O => (30%nat, inr (JObj ∅))
       | _ => (0%nat, inl (OtherError "connection refused"))
       end;
     notify_interested_services := appservice_down |}.

(** A primary that is never reachable. *)
Definition env_unreachable : Env :=
  {| get_json := fun _ _ _ => (0%nat, inl (OtherError "connection refused"));
     notify_interested_services := fun _ _ => inr (Fired tt) |}.

(** A primary whose [events] entry the store cannot use. *)
Definition env_bad_batch : Env :=
  {| get_json := fun _ _ _ => (1%nat, inr (events_batch (JStr "five") []));
     notify_interested_services := fun _ _ => inr (Fired tt) |}.



End Appservice.

(** * [synapse/rest/admin/room_hierarchy.py] *)

Module RoomHierarchy.

Import Mon.
Local Open Scope py_scope.

(** Constants of [synapse.api.constants]. *)
Definition Membership_INVITE : string := "invite".
Definition Membership_JOIN : string := "join".
Definition Membership_KNOCK : string := "knock".
Definition Membership_LEAVE : string := "leave".
Definition EventTypes_JoinRules : string := "m.room.join_rules".
Definition JoinRules_PUBLIC : string := "public".

Record UserID : Type := {
  localpart : string;
  domain : string
}.

Definition to_string (u : UserID) : string :=
  String.append "@" (String.append (localpart u) (String.append ":" (domain u))).

Record Requester : Type := {
  user : UserID;
  authenticated_entity : option string
}.

Definition create_requester (u : UserID) (entity : string) : Requester :=
  {| user := u; authenticated_entity := Some entity |}.

Record EventBase : Type := { content : gmap string json }.

(** The servlet's collaborators: auth, the datastore, the room member
    handler and the room hierarchy handler, all defined outside this file.
    [DB] is the homeserver's state; only [update_membership] changes it. *)
Record Homeserver (DB : Type) : Type := {
  get_user_by_req : DB -> string -> exn + Requester;
  assert_user_is_admin : DB -> UserID -> option exn;
  resolve_room_id : DB -> string -> exn + (string * list string);
  UserID_from_string : string -> exn + UserID;
  is_mine : UserID -> bool;
  get_rooms_for_local_user_where_membership_is :
    DB -> string -> list string -> exn + list string;
  get_room_descendants :
    DB -> string -> exn + (list (string * list string) * list string);
  get_filtered_current_state_ids :
    DB -> string -> list (string * string)
    -> exn + gmap (string * string) string;
  get_event : DB -> string -> exn + EventBase;
  update_membership :
    DB -> Requester -> UserID -> string -> string -> option exn * DB
}.
Arguments get_user_by_req {DB} h.
Arguments assert_user_is_admin {DB} h.
Arguments resolve_room_id {DB} h.
Arguments UserID_from_string {DB} h.
Arguments is_mine {DB} h.
Arguments get_rooms_for_local_user_where_membership_is {DB} h.
Arguments get_room_descendants {DB} h.
Arguments get_filtered_current_state_ids {DB} h.
Arguments get_event {DB} h.
Arguments update_membership {DB} h.

(** Calls made while the request is handled. *)
Inductive event : Type :=
| EvGetUserByReq
| EvAssertAdmin
| EvResolveRoomId (room : string)
| EvGetRooms (user_id : string) (memberships : list string)
| EvGetRoomDescendants (space_id : string)
| EvGetState (room_id : string)
| EvGetEvent (event_id : string)
| EvUpdateMembership (room_id : string) (action : string)
    (failure : option exn).

(** The state while the request is handled: the homeserver's, and the
    Python lists that [failures] points to.  A list object is named by
    its index in [heap]. *)
Record world (DB : Type) : Type := World {
  db : DB;
  heap : list (list string)
}.
Arguments World {DB} db heap.
Arguments db {DB} w.
Arguments heap {DB} w.

(** The JSON body of the reply. *)
Record reply : Type := {
  left : list string;
  failed : gmap string (list string)
}.

(** [str(e)]. *)
Definition str (e : exn) : string :=
  match e with
  | KeyError key => key
  | TypeError => "TypeError"
  | AttributeError => "AttributeError"
  | SynapseError _ msg => msg
  | OtherError msg => msg
  end.

Definition is_public (join_rules : option json) : bool :=
  match join_rules with
  | Some (JStr rule) => String.eqb rule JoinRules_PUBLIC
  | _ => false
  end.

Definition of_sum {A} (r : exn + A) : outcome A :=
  match r with inr a => Returned a | inl e => Raised e end.

Section Servlet.
Context {DB : Type}.
Variable hs : Homeserver DB.

Abbreviation M := (Mon.M (world DB) event).

(** A read of the homeserver's state. *)
Definition read {A} (ev : event) (f : DB -> exn + A) : M A :=
  emit ev ;;;
  w <~ get ;;
  lift (of_sum (f (db w))).

Definition call_assert_user_is_admin (u : UserID) : M unit :=
  emit EvAssertAdmin ;;;
  w <~ get ;;
  match assert_user_is_admin hs (db w) u with
  | None => ret tt
  | Some e => raise e
  end.

Definition call_update_membership (requester : Requester) (target : UserID)
    (room_id action : string) : M unit :=
  w <~ get ;;
  let '(failure, db') :=
    update_membership hs (db w) requester target room_id action in
  put (World db' (heap w)) ;;;
  emit (EvUpdateMembership room_id action failure) ;;;
  match failure with
  | None => ret tt
  | Some e => raise e
  end.

(** A new list object. *)
Definition new_list (items : list string) : M nat :=
  w <~ get ;;
  put (World (db w) (heap w ++ [items])) ;;;
  ret (length (heap w)).

(** [l.append(x)] on the list object [l]. *)
Definition list_append (l : nat) (x : string) : M unit :=
  w <~ get ;;
  put (World (db w) (alter (fun items => items ++ [x]) l (heap w))).

(** [failures.get(room_id, [])]: the default is built before the
    lookup, and is what comes back when the key is missing. *)
Definition failures_get (failures : gmap string nat) (room_id : string)
    : M nat :=
  fresh_list <~ new_list [] ;;
  ret (default fresh_list (failures !! room_id)).

(** The join rule that the loop over [rooms_to_check] reads. *)
Definition read_join_rules (room_id : string) : M (option json) :=
  current_state_ids <~
    read (EvGetState room_id)
      (fun d => get_filtered_current_state_ids hs d room_id
                  [(EventTypes_JoinRules, EmptyString)]) ;;
  match current_state_ids !! (EventTypes_JoinRules, EmptyString) with
  | Some join_rules_event_id =>
      join_rules_event <~
        read (EvGetEvent join_rules_event_id)
          (fun d => get_event hs d join_rules_event_id) ;;
      ret (content join_rules_event !! "join_rule")
  | None => ret None
  end.

Definition check_room (rooms_to_leave : gset string) (room_id : string)
    : M (gset string) :=
  join_rules <~ read_join_rules room_id ;;
  if negb (is_public join_rules)
  then ret ({[ room_id ]} ∪ rooms_to_leave)
  else ret rooms_to_leave.

Definition new_failure (failures : gmap string nat) (room_id : string)
    : M (gmap string nat) :=
  l <~ new_list ["Could not fully explore space or room."] ;;
  ret (<[room_id := l]> failures).

Definition leave_room (requester : Requester) (target : UserID)
    (failures : gmap string nat) (left_rooms : list string)
    (room_id : string) : M (list string) :=
  try_except
    (call_update_membership requester target room_id Membership_LEAVE ;;;
     ret (left_rooms ++ [room_id]))
    (fun e =>
       l <~ failures_get failures room_id ;;
       list_append l (str e) ;;;
       ret left_rooms).

Definition on_DELETE (request space_id user_id : string)
    : M (Z * reply) :=
  requester <~ read EvGetUserByReq (fun d => get_user_by_req hs d request) ;;
  call_assert_user_is_admin (user requester) ;;;
  resolved <~
    read (EvResolveRoomId space_id) (fun d => resolve_room_id hs d space_id) ;;
  let space_id := fst resolved in
  target_user <~ lift (of_sum (UserID_from_string hs user_id)) ;;
  if negb (is_mine hs target_user) then
    raise (SynapseError 400 "This endpoint can only be used with local users")
  else
    let memberships :=
      [Membership_INVITE; Membership_JOIN; Membership_KNOCK] in
    user_rooms <~
      read (EvGetRooms user_id memberships)
        (fun d => get_rooms_for_local_user_where_membership_is
                    hs d user_id memberships) ;;
    let user_room_ids : gset string := list_to_set user_rooms in
    hierarchy <~
      read (EvGetRoomDescendants space_id)
        (fun d => get_room_descendants hs d space_id) ;;
    let descendants := fst hierarchy in
    let inaccessible_room_ids := snd hierarchy in
    let space_room_ids : gset string :=
      {[ space_id ]} ∪ list_to_set (map fst descendants) in
    let rooms_to_check := space_room_ids ∩ user_room_ids in
    rooms_to_leave <~
      foldM check_room {[ space_id ]} (elements rooms_to_check) ;;
    failures <~ foldM new_failure ∅ inaccessible_room_ids ;;
    let fake_requester :=
      create_requester target_user (to_string (user requester)) in
    left_rooms <~
      foldM (leave_room fake_requester target_user failures) []
        (elements rooms_to_leave) ;;
    w <~ get ;;
    ret (200,
         {| left := left_rooms;
            failed := (fun l => default [] (heap w !! l)) <$> failures |}).
End Servlet.

(** ** Reading the trace *)

Definition attempted (t : list event) : list string :=
  omap (fun e =>
          match e with EvUpdateMembership r _ _ => Some r | _ => None end) t.

Definition fetched (t : list event) : list string :=
  omap (fun e => match e with EvGetRooms u _ => Some u | _ => None end) t.

(** The join rule the servlet would read for a room; a room whose state
    cannot be read counts as having none. *)
Definition join_rules_of {DB} (hs : Homeserver DB) (d : DB)
    (room_id : string) : option json :=
  match get_filtered_current_state_ids hs d room_id
          [(EventTypes_JoinRules, EmptyString)] with
  | inr current_state_ids =>
      match current_state_ids !! (EventTypes_JoinRules, EmptyString) with
      | Some join_rules_event_id =>
          match get_event hs d join_rules_event_id with
          | inr join_rules_event => content join_rules_event !! "join_rule"
          | inl _ => None
          end
      | None => None
      end
  | inl _ => None
  end.

Definition non_public {DB} (hs : Homeserver DB) (d : DB)
    (room_id : string) : Prop :=
  is_public (join_rules_of hs d room_id) = false.

#[export] Instance non_public_dec {DB} (hs : Homeserver DB) (d : DB)
    (room_id : string) : Decision (non_public hs d room_id).
Proof. unfold non_public. apply _. Defined.

Definition updates (t : list event) : list (string * string * option exn) :=
  omap (fun e =>
          match e with
          | EvUpdateMembership r a f => Some (r, a, f)
          | _ => None
          end) t.

(** The rooms the user is to leave, said in one go: the space, and the
    rooms of the hierarchy the user is invited to, joined to or knocking
    on whose join rule is not public. *)
Definition rooms_to_leave_of {DB} (hs : Homeserver DB) (d : DB)
    (space_id : string) (user_rooms : list string)
    (descendants : list (string * list string)) : gset string :=
  {[ space_id ]}
  ∪ filter (non_public hs d)
      (({[ space_id ]} ∪ list_to_set (map fst descendants))
       ∩ list_to_set user_rooms).

(** How the attempts to leave [rooms], in this order, end. *)
Fixpoint leave_outcomes {DB} (hs : Homeserver DB) (requester : Requester)
    (target : UserID) (d : DB) (rooms : list string)
    : list (string * option exn) * DB :=
  match rooms with
  | [] => ([], d)
  | room_id :: rest =>
      let '(failure, d1) :=
        update_membership hs d requester target room_id Membership_LEAVE in
      let '(outcomes, d2) := leave_outcomes hs requester target d1 rest in
      ((room_id, failure) :: outcomes, d2)
  end.

Definition succeeded (outcomes : list (string * option exn)) : list string :=
  omap (fun o => match snd o with None => Some (fst o) | Some _ => None end)
       outcomes.

(** ** A homeserver to run the servlet on

    One space [!space] with the rooms [!a] (public), [!b] (invite only),
    [!c] (no join rules known here) and [!far], which could not be
    explored.  The state is the set of rooms the target user is in.
    Leaving [!b] or [!far] fails. *)

Fixpoint split_at_colon (s : string) : option (string * string) :=
  match s with
  | EmptyString => None
  | String c rest =>
      if Ascii.eqb c ":"%char then Some (EmptyString, rest)
      else match split_at_colon rest with
           | Some (l, d) => Some (String c l, d)
           | None => None
           end
  end.

Definition parse_user_id (s : string) : exn + UserID :=
  match s with
  | String c rest =>
      if Ascii.eqb c "@"%char then
        match split_at_colon rest with
        | Some (l, d) => inr {| localpart := l; domain := d |}
        | None => inl (SynapseError 400 "Expected UserID of the form @localname:domain")
        end
      else inl (SynapseError 400 "Expected UserID string to start with @")
  | EmptyString => inl (SynapseError 400 "Expected UserID string to start with @")
  end.

Definition example_hs : Homeserver (gset string) :=
  {| get_user_by_req := fun _ token =>
       if String.eqb token "admin-token" then
         inr {| user := {| localpart := "admin"; domain := "example.org" |};
                authenticated_entity := None |}
       else if String.eqb token "carol-token" then
         inr {| user := {| localpart := "carol"; domain := "example.org" |};
                authenticated_entity := None |}
       else inl (SynapseError 401 "Missing access token");
     assert_user_is_admin := fun _ u =>
       if String.eqb (localpart u) "admin" then None
       else Some (SynapseError 403 "You are not a server admin");
     resolve_room_id := fun _ room => inr (room, []);
     UserID_from_string := parse_user_id;
     is_mine := fun u => String.eqb (domain u) "example.org";
     get_rooms_for_local_user_where_membership_is := fun d _ _ =>
       inr (elements d);
     get_room_descendants := fun _ _ =>
       inr ([("!a", []); ("!b", []); ("!c", []); ("!far", [])], ["!far"]);
     get_filtered_current_state_ids := fun _ room _ =>
       if String.eqb room "!a" then
         inr {[ (EventTypes_JoinRules, EmptyString) := "$rules_a" ]}
       else if String.eqb room "!b" then
         inr {[ (EventTypes_JoinRules, EmptyString) := "$rules_b" ]}
       else inr ∅;
     get_event := fun _ event_id =>
       if String.eqb event_id "$rules_a" then
         inr {| content := {[ "join_rule" := JStr "public" ]} |}
       else if String.eqb event_id "$rules_b" then
         inr {| content := {[ "join_rule" := JStr "invite" ]} |}
       else inl (OtherError "event not found");
     update_membership := fun d _ _ room _ =>
       if String.eqb room "!b" || String.eqb room "!far"
       then (Some (OtherError "boom"), d)
       else (None, d ∖ {[ room ]}) |}.

Definition example_world : world (gset string) :=
  World {[ "!space"; "!a"; "!b"; "!c"; "!far" ]} [].

Definition alice : string := "@alice:example.org".

(** The reply to the admin's request to take [alice] out of [!space]:
    the failure to leave [!far] is appended to the list [failures] holds
    for it, the failure to leave [!b] is lost. *)
Definition example_reply : reply :=
  {| left := ["!space"; "!c"];
     failed :=
       {[ "!far" := ["Could not fully explore space or room."; "boom"] ]} |}.

End RoomHierarchy.


(** * More on the replication loop *)

Module AppserviceExtra.

Import Mon Appservice.

(** The position a response makes the loop dispatch, if any: the response
    has to be an object whose [events] value is an object with a
    [position] key. *)
Definition dispatched_position (result : json) : option json :=
  match result with
  | JObj fields =>
      match fields !! "events" with
      | Some (JObj entry) => entry !! "position"
      | _ => None
      end
  | _ => None
  end.

(** The responses the store applied without raising. *)
Definition successes (t : list event) : list json :=
  omap (fun e =>
          match e with
          | EvProcessReplication r None => Some r
          | _ => None
          end) t.

(** The store after [process_replication] was called with each of
    [results] in turn, whether or not the calls raised. *)
Definition apply_all {S : Type} `{ReplicaStore S} (st : S)
    (results : list json) : S :=
  fold_left (fun st r => snd (process_replication st r)) results st.

(** A worker whose store does not follow the [events] stream. *)
Definition directory_worker : world (gmap string Z) :=
  World {[ "directory" := 0 ]} 0 0.

(** A primary whose [events] entry has rows but no position. *)
Definition env_no_position : Env :=
  {| get_json := fun _ _ _ =>
       (2%nat, inr (JObj {[ "events" := JObj {[ "rows" := JArr [] ]} ]}));
     notify_interested_services := fun _ _ => inr (Fired tt) |}.

End AppserviceExtra.

(** * More on the room hierarchy servlet *)

Module RoomHierarchyExtra.

Import Mon RoomHierarchy.

Definition explore_msg : string := "Could not fully explore space or room.".

(** The messages of the failed attempts to leave [room_id], oldest
    first. *)
Definition notes (outcomes : list (string * option exn)) (room_id : string)
    : list string :=
  omap (fun o =>
          match snd o with
          | Some e => if decide (fst o = room_id) then Some (str e) else None
          | None => None
          end) outcomes.


(** What one turn of the loop over [rooms_to_leave] does to the list
    objects: nothing when the leave went through; otherwise
    [failures.get(room_id, [])] makes a new empty list and the message is
    appended to the list that the lookup gave. *)
Definition leave_heap (failures : gmap string nat) (room_id : string)
    (failure : option exn) (h : list (list string)) : list (list string) :=
  match failure with
  | None => h
  | Some e =>
      alter (fun items => items ++ [str e])
        (default (length h) (failures !! room_id)) (h ++ [[]])
  end.

Definition leave_heaps (failures : gmap string nat)
    (outcomes : list (string * option exn)) (h : list (list string))
    : list (list string) :=
  fold_left (fun h o => leave_heap failures (fst o) (snd o) h) outcomes h.

(** [failures] as the loop over [rooms_to_leave] needs it: every key has
    a list object of its own, which is in the heap. *)
Definition failures_ok (failures : gmap string nat) (h : list (list string))
    : Prop :=
  (forall room_id l, failures !! room_id = Some l -> (l < length h)%nat)
  /\ (forall r1 r2 l,
        failures !! r1 = Some l -> failures !! r2 = Some l -> r1 = r2).

(** The join rules of a room can be read. *)
Definition readable {DB} (hs : Homeserver DB) (d : DB) (room_id : string)
    : Prop :=
  exists ids,
    get_filtered_current_state_ids hs d room_id
      [(EventTypes_JoinRules, EmptyString)] = inr ids
    /\ forall event_id,
         ids !! (EventTypes_JoinRules, EmptyString) = Some event_id ->
         exists join_rules_event,
           get_event hs d event_id = inr join_rules_event.

End RoomHierarchyExtra.

(** * The rest of [synapse/app/appservice.py]: connection, listeners,
      start-up *)

Module Worker.

Import Mon.
Local Open Scope py_scope.

(** ** Python on configuration values *)

(** [for x in v]: a list gives its items, a string its characters, a
    dictionary its keys; nothing else can be iterated. *)
Definition py_iter (v : json) : outcome (list json) :=
  match v with
  | JArr items => Returned items
  | JStr s =>
      Returned (map (fun c => JStr (String c EmptyString))
                    (list_ascii_of_string s))
  | JObj fields => Returned (map (fun kv => JStr (fst kv)) (map_to_list fields))
  | _ => Raised TypeError
  end.

(** [v == s] for a string literal [s]. *)
Definition is_str (v : json) (s : string) : bool :=
  match v with
  | JStr s' => String.eqb s' s
  | _ => false
  end.

(** [v is None]. *)
Definition is_None (v : json) : bool :=
  match v with
  | JNull => true
  | _ => false
  end.

(** [d.get(key, default)] and [d[key]] on a dictionary. *)
Definition dict_get (d : gmap string json) (key : string) (dflt : json)
    : json :=
  default dflt (d !! key).

Definition dict_getitem (d : gmap string json) (key : string)
    : outcome json :=
  match d !! key with
  | Some v => Returned v
  | None => Raised (KeyError key)
  end.

(** ** What is handed to the reactor *)

Inductive resource : Type := MetricsResource.

Inductive factory : Type :=
| SynapseSite (logger_name : string) (site_tag : json)
    (config : gmap string json) (resources : gmap string resource)
| manhole (username password : string).

Inductive event : Type :=
| EvConnect (params : gmap string json)
| EvOnNewConnection (db_conn : nat)
| EvListenTCP (port : json) (f : factory) (interface : json)
| EvInfo (msg : string) (args : list json)
| EvWarn (msg : string) (args : list json)
| EvStderr (text : string)
| EvSetupLogging (log_config log_file : json)
| EvUseFrozenDicts (flag : bool)
| EvCreateEngine (database_config : gmap string json)
| EvNewServer (server_name version_string : string)
    (notify_appservices : bool)
| EvNewStore (db_conn : nat)
| EvCallWhenRunning
| EvDaemonStart (pid_file : json)
| EvChangeResourceLimit (soft_file_limit : json)
| EvGcSetThreshold (thresholds : json)
| EvReactorRun.

(** The attributes of the loaded configuration that [start] reads.  The
    listeners are kept in the state, see [world]. *)
Record Config : Type := {
  worker_app : json;
  worker_log_config : json;
  worker_log_file : json;
  use_frozen_dicts : bool;
  database_config : gmap string json;
  notify_appservices : bool;
  server_name : string;
  worker_listeners : list (gmap string json);
  soft_file_limit : json;
  gc_thresholds : json;
  worker_daemonize : bool;
  worker_pid_file : json
}.

(** How [HomeServerConfig.load_config] ends. *)
Inductive load_result : Type :=
| Loaded (config : Config)
| ConfigError (message : string)
| LoadRaised (e : exn).

(** How [start] is left otherwise than by an exception of a
    collaborator. *)
Inductive ending : Type :=
| ReactorStopped
| SystemExit (code : Z)
| AssertionError.

(** The collaborators: the database engine ([connect] hands back a
    connection, here a number, or raises), the reactor ([listenTCP] may
    raise, depending on what is bound already), Python's [str], the
    constant [METRICS_PREFIX] of [synapse.metrics.resource], the
    configuration loader, [setup_logging] and [create_engine], which may
    raise, and [get_version_string(synapse)].  Constructors, the logger,
    [callWhenRunning], [Daemonize] and [reactor.run] are taken to return. *)
Record Env : Type := {
  connect : gmap string json -> exn + nat;
  on_new_connection : nat -> option exn;
  listenTCP : list (json * json) -> json -> json -> option exn;
  py_str : json -> string;
  METRICS_PREFIX : string;
  load_config : list string -> load_result;
  setup_logging : json -> json -> option exn;
  create_engine : gmap string json -> option exn;
  version_string : string
}.

(** The state: the listener dictionaries of the configuration, which the
    code changes in place, and the (port, interface) pairs bound so far. *)
Record world : Type := World {
  listeners : list (gmap string json);
  bound : list (json * json)
}.

Section Server.
Variable env : Env.

Abbreviation M := (Mon.M world event).

(** *** [get_db_conn] *)

Definition get_db_conn (db_config : gmap string json)
    (run_new_connection : bool) : M nat :=
  args <~ lift (match dict_get db_config "args" (JObj ∅) with
                | JObj args => Returned args
                | _ => Raised AttributeError
                end) ;;
  let db_params : gmap string json :=
    filter (fun kv => String.prefix "cp_" (fst kv) = false) args in
  emit (EvConnect db_params) ;;;
  db_conn <~ lift (match connect env db_params with
                   | inr c => Returned c
                   | inl e => Raised e
                   end) ;;
  (if run_new_connection then
     emit (EvOnNewConnection db_conn) ;;;
     match on_new_connection env db_conn with
     | None => ret tt
     | Some e => raise e
     end
   else ret tt) ;;;
  ret db_conn.

(** *** [_listen_http] and [start_listening] *)

(** The listener dictionary [i] of the configuration, as it is now. *)
Definition the_listener (i : nat) : M (gmap string json) :=
  w <~ get ;;
  match listeners w !! i with
  | Some l => ret l
  | None => raise (OtherError "no such listener")
  end.

Definition call_listenTCP (port : json) (f : factory) (interface : json)
    : M unit :=
  emit (EvListenTCP port f interface) ;;;
  w <~ get ;;
  match listenTCP env (bound w) port interface with
  | None => put (World (listeners w) (bound w ++ [(port, interface)]))
  | Some e => raise e
  end.

(** [if bind_address is not None: bind_addresses.append(bind_address)]
    for the listener dictionary [i].  When the dictionary has the key
    [bind_addresses], the list appended to is the dictionary's own. *)
Definition append_bind_address (i : nat) (listener : gmap string json)
    : M json :=
  let bind_address := dict_get listener "bind_address" JNull in
  let bind_addresses := dict_get listener "bind_addresses" (JArr []) in
  if is_None bind_address then ret bind_addresses
  else
    match bind_addresses with
    | JArr items =>
        let appended := JArr (items ++ [bind_address]) in
        match listener !! "bind_addresses" with
        | Some _ =>
            w <~ get ;;
            put (World (<[i := <["bind_addresses" := appended]> listener]>
                          (listeners w)) (bound w)) ;;;
            ret appended
        | None => ret appended
        end
    | _ => raise AttributeError
    end.

(** The loop over [listener_config["resources"]]. *)
Definition add_names (resources : gmap string resource) (res : json)
    : outcome (gmap string resource) :=
  match py_getitem res "names" with
  | Returned names_v =>
      match py_iter names_v with
      | Returned names =>
          Returned
            (fold_left
               (fun resources name =>
                  if is_str name "metrics"
                  then <[METRICS_PREFIX env := MetricsResource]> resources
                  else resources)
               names resources)
      | Raised e => Raised e
      | Suspended => Suspended
      end
  | Raised e => Raised e
  | Suspended => Suspended
  end.

Fixpoint collect_resources (resources : gmap string resource)
    (entries : list json) : outcome (gmap string resource) :=
  match entries with
  | [] => Returned resources
  | res :: rest =>
      match add_names resources res with
      | Returned resources' => collect_resources resources' rest
      | Raised e => Raised e
      | Suspended => Suspended
      end
  end.

Definition listen_http (i : nat) : M unit :=
  listener_config <~ the_listener i ;;
  port <~ lift (dict_getitem listener_config "port") ;;
  let site_tag := dict_get listener_config "tag" port in
  resources_v <~ lift (dict_getitem listener_config "resources") ;;
  entries <~ lift (py_iter resources_v) ;;
  resources <~ lift (collect_resources ∅ entries) ;;
  bind_addresses <~ append_bind_address i listener_config ;;
  addresses <~ lift (py_iter bind_addresses) ;;
  foldM (fun _ address =>
           config_now <~ the_listener i ;;
           call_listenTCP port
             (SynapseSite
                (String.append "synapse.access.http." (py_str env site_tag))
                site_tag config_now resources)
             address)
        tt addresses ;;;
  emit (EvInfo "Synapse appservice now listening on port %d" [port]).

Definition listen_manhole (i : nat) : M unit :=
  listener <~ the_listener i ;;
  bind_addresses <~ append_bind_address i listener ;;
  addresses <~ lift (py_iter bind_addresses) ;;
  foldM (fun _ address =>
           port <~ lift (dict_getitem listener "port") ;;
           call_listenTCP port (manhole "matrix" "rabbithole") address)
        tt addresses.

(** One turn of [for listener in listeners:]. *)
Definition start_listener (i : nat) : M unit :=
  listener <~ the_listener i ;;
  type <~ lift (dict_getitem listener "type") ;;
  if is_str type "http" then listen_http i
  else
    type <~ lift (dict_getitem listener "type") ;;
    if is_str type "manhole" then listen_manhole i
    else
      type <~ lift (dict_getitem listener "type") ;;
      emit (EvWarn "Unrecognized listener type: %s" [type]).

(** [start_listening(config.worker_listeners)]: the listeners are those of
    the state. *)
Definition start_listening : M unit :=
  w <~ get ;;
  foldM (fun _ i => start_listener i) tt (seq 0 (length (listeners w))).

(** *** [setup] and [start] *)

(** [ps.setup()]. *)
Definition setup (db_config : gmap string json) : M unit :=
  emit (EvInfo "Setting up." []) ;;;
  db_conn <~ get_db_conn db_config true ;;
  emit (EvNewStore db_conn) ;;;
  emit (EvInfo "Finished setting up." []).

(** The nested [run()]. *)
Definition run (config : Config) : M unit :=
  emit (EvInfo "Running" []) ;;;
  emit (EvChangeResourceLimit (soft_file_limit config)) ;;;
  (if truthy (gc_thresholds config)
   then emit (EvGcSetThreshold (gc_thresholds config))
   else ret tt) ;;;
  emit EvReactorRun.

Definition notify_appservices_msg : string :=
  String.append (String "010" "The appservices must be disabled in the main synapse process")
 (String.append (String "010" "before they can be run in a separate worker.")
 (String.append (String "010" "Please add ``notify_appservices: false`` to the main config")
                (String "010" EmptyString))).

Definition start (config_options : list string) : M ending :=
  match load_config env config_options with
  | LoadRaised e => raise e
  | ConfigError message =>
      emit (EvStderr (String "010"
                        (String.append message (String "010" EmptyString)))) ;;;
      ret (SystemExit 1)
  | Loaded config =>
      if negb (is_str (worker_app config) "synapse.app.appservice")
      then ret AssertionError
      else
        emit (EvSetupLogging (worker_log_config config)
                (worker_log_file config)) ;;;
        lift (match setup_logging env (worker_log_config config)
                      (worker_log_file config) with
              | None => Returned tt
              | Some e => Raised e
              end) ;;;
        emit (EvUseFrozenDicts (use_frozen_dicts config)) ;;;
        emit (EvCreateEngine (database_config config)) ;;;
        lift (match create_engine env (database_config config) with
              | None => Returned tt
              | Some e => Raised e
              end) ;;;
        if notify_appservices config then
          emit (EvStderr notify_appservices_msg) ;;;
          ret (SystemExit 1)
        else
          (* config.notify_appservices = True *)
          emit (EvNewServer (server_name config)
                  (String.append "Synapse/" (version_string env)) true) ;;;
          setup (database_config config) ;;;
          w <~ get ;;
          put (World (worker_listeners config) (bound w)) ;;;
          start_listening ;;;
          emit EvCallWhenRunning ;;;
          (if worker_daemonize config
           then emit (EvDaemonStart (worker_pid_file config)) ;;; run config
           else run config) ;;;
          ret ReactorStopped
  end.
End Server.

(** ** Reading a trace *)

Definition listened (t : list event) : list (json * factory * json) :=
  omap (fun e =>
          match e with EvListenTCP p f a => Some (p, f, a) | _ => None end) t.

Definition warned (t : list event) : list (list json) :=
  omap (fun e => match e with EvWarn _ args => Some args | _ => None end) t.

Definition connects (t : list event) : list (gmap string json) :=
  omap (fun e => match e with EvConnect params => Some params | _ => None end)
       t.

Definition scheduled (t : list event) : nat :=
  length (omap (fun e =>
                  match e with EvCallWhenRunning => Some tt | _ => None end) t).

(** The addresses a listener is bound on when [bind_addresses] is a list
    or is missing: the list, then [bind_address] if there is one. *)
Definition addresses_of (listener : gmap string json) : list json :=
  match dict_get listener "bind_addresses" (JArr []) with
  | JArr items =>
      items ++ (if is_None (dict_get listener "bind_address" JNull)
                then [] else [dict_get listener "bind_address" JNull])
  | _ => []
  end.

(** A resource entry names [metrics]. *)
Definition names_metrics (res : json) : Prop :=
  exists names_v names name,
    py_getitem res "names" = Returned names_v
    /\ py_iter names_v = Returned names
    /\ In name names
    /\ is_str name "metrics" = true.

Definition new_connections (t : list event) : list nat :=
  omap (fun e => match e with EvOnNewConnection c => Some c | _ => None end) t.

(** The listener dictionary after [start_listening]: [bind_address] has
    been appended to the dictionary's own [bind_addresses] list, if it has
    both. *)
Definition appended (listener : gmap string json) : gmap string json :=
  match listener !! "bind_addresses" with
  | Some (JArr items) =>
      if is_None (dict_get listener "bind_address" JNull) then listener
      else <["bind_addresses" :=
               JArr (items ++ [dict_get listener "bind_address" JNull])]>
             listener
  | _ => listener
  end.

(** The listener dictionary after [start_listening]: only [http] and
    [manhole] listeners are touched. *)
Definition started (listener : gmap string json) : gmap string json :=
  let type := dict_get listener "type" JNull in
  if is_str type "http" then appended listener
  else if is_str type "manhole" then appended listener
  else listener.

(** What is bound for a listener: port, factory and interface of each
    [listenTCP], in order. *)
Definition plan (env : Env) (listener : gmap string json)
    : list (json * factory * json) :=
  let type := dict_get listener "type" JNull in
  let port := dict_get listener "port" JNull in
  if is_str type "http" then
    let site_tag := dict_get listener "tag" port in
    let resources :=
      match py_iter (dict_get listener "resources" JNull) with
      | Returned entries =>
          match collect_resources env ∅ entries with
          | Returned resources => resources
          | _ => ∅
          end
      | _ => ∅
      end in
    map (fun address =>
           (port,
            SynapseSite
              (String.append "synapse.access.http." (py_str env site_tag))
              site_tag (appended listener) resources,
            address))
        (addresses_of listener)
  else if is_str type "manhole" then
    map (fun address => (port, manhole "matrix" "rabbithole", address))
        (addresses_of listener)
  else [].

(** What is logged for a listener once it is bound. *)
Definition logs (listener : gmap string json) : list event :=
  let type := dict_get listener "type" JNull in
  if is_str type "http" then
    [EvInfo "Synapse appservice now listening on port %d"
       [dict_get listener "port" JNull]]
  else if is_str type "manhole" then []
  else [EvWarn "Unrecognized listener type: %s" [type]].

(** A listener dictionary the code gets through: it has a [type]; its
    [bind_addresses], if any, is a list; an [http] listener has a [port]
    and [resources] that can be gone through; a [manhole] listener with an
    address to bind has a [port]. *)
Definition listener_ok (env : Env) (listener : gmap string json) : Prop :=
  (exists type, listener !! "type" = Some type)
  /\ (exists items, dict_get listener "bind_addresses" (JArr []) = JArr items)
  /\ (is_str (dict_get listener "type" JNull) "http" = true ->
      (exists port, listener !! "port" = Some port)
      /\ exists resources_v entries resources,
           listener !! "resources" = Some resources_v
           /\ py_iter resources_v = Returned entries
           /\ collect_resources env ∅ entries = Returned resources)
  /\ (is_str (dict_get listener "type" JNull) "http" = false ->
      is_str (dict_get listener "type" JNull) "manhole" = true ->
      addresses_of listener <> [] ->
      exists port, listener !! "port" = Some port).

(** The reactor never refuses to bind. *)
Definition binds_always (env : Env) : Prop :=
  forall bound port interface, listenTCP env bound port interface = None.

Definition endpoints (binds : list (json * factory * json))
    : list (json * json) :=
  map (fun b => (fst (fst b), snd b)) binds.

Definition listen_events (binds : list (json * factory * json)) : list event :=
  map (fun b => EvListenTCP (fst (fst b)) (snd (fst b)) (snd b)) binds.

(** ** A configuration to start the worker on *)

Definition http_listener : gmap string json :=
  <["type" := JStr "http"]>
  (<["port" := JNum 8009]>
  (<["bind_address" := JStr "127.0.0.1"]>
  (<["bind_addresses" := JArr [JStr "::1"]]>
  {[ "resources" :=
       JArr [JObj {[ "names" := JArr [JStr "client"; JStr "metrics"] ]}] ]}))).

Definition manhole_listener : gmap string json :=
  <["type" := JStr "manhole"]>
  (<["port" := JNum 9000]>
  {[ "bind_address" := JStr "127.0.0.1" ]}).

Definition odd_listener : gmap string json :=
  {[ "type" := JStr "replication" ]}.

Definition example_db_config : gmap string json :=
  {[ "args" :=
       JObj (<["database" := JStr "synapse"]>
            (<["cp_min" := JNum 5]> {[ "cp_max" := JNum 10 ]})) ]}.

Definition example_env : Env :=
  {| connect := fun _ => inr 1%nat;
     on_new_connection := fun _ => None;
     listenTCP := fun _ _ _ => None;
     py_str := fun v =>
       match v with
       | JStr s => s
       | JNum 8009 => "8009"
       | _ => "?"
       end;
     METRICS_PREFIX := "/_synapse/metrics";
     load_config := fun options =>
       match options with
       | [] => ConfigError "Must supply a config file."
       | _ =>
           Loaded
             {| worker_app := JStr "synapse.app.appservice";
                worker_log_config := JNull;
                worker_log_file := JStr "appservice.log";
                use_frozen_dicts := false;
                database_config := example_db_config;
                notify_appservices := false;
                server_name := "example.org";
                worker_listeners :=
                  [http_listener; odd_listener; manhole_listener];
                soft_file_limit := JNum 0;
                gc_thresholds := JNull;
                worker_daemonize := false;
                worker_pid_file := JNull |}
       end;
     setup_logging := fun _ _ => None;
     create_engine := fun _ => None;
     version_string := "0.17.0" |}.

Definition example_world : world :=
  World [http_listener; odd_listener; manhole_listener] [].

(** The main process still notifies the appservices itself. *)
Definition env_main_notifies : Env :=
  {| connect := connect example_env;
     on_new_connection := on_new_connection example_env;
     listenTCP := listenTCP example_env;
     py_str := py_str example_env;
     METRICS_PREFIX := METRICS_PREFIX example_env;
     load_config := fun _ =>
       Loaded
         {| worker_app := JStr "synapse.app.appservice";
            worker_log_config := JNull;
            worker_log_file := JNull;
            use_frozen_dicts := false;
            database_config := example_db_config;
            notify_appservices := true;
            server_name := "example.org";
            worker_listeners := [http_listener];
            soft_file_limit := JNum 0;
            gc_thresholds := JNull;
            worker_daemonize := false;
            worker_pid_file := JNull |};
     setup_logging := setup_logging example_env;
     create_engine := create_engine example_env;
     version_string := version_string example_env |}.

(** The database cannot be reached. *)
Definition env_database_down : Env :=
  {| connect := fun _ => inl (OtherError "could not connect to server");
     on_new_connection := on_new_connection example_env;
     listenTCP := listenTCP example_env;
     py_str := py_str example_env;
     METRICS_PREFIX := METRICS_PREFIX example_env;
     load_config := load_config example_env;
     setup_logging := setup_logging example_env;
     create_engine := create_engine example_env;
     version_string := version_string example_env |}.

(** A reactor on which [127.0.0.1] cannot be bound. *)
Definition env_address_in_use : Env :=
  {| connect := connect example_env;
     on_new_connection := on_new_connection example_env;
     listenTCP := fun _ _ interface =>
       if is_str interface "127.0.0.1"
       then Some (OtherError "Address already in use")
       else None;
     py_str := py_str example_env;
     METRICS_PREFIX := METRICS_PREFIX example_env;
     load_config := load_config example_env;
     setup_logging := setup_logging example_env;
     create_engine := create_engine example_env;
     version_string := version_string example_env |}.

(** An [http] listener whose port was left out. *)
Definition portless_listener : gmap string json :=
  <["type" := JStr "http"]>
  (<["bind_address" := JStr "127.0.0.1"]>
  (<["bind_addresses" := JArr [JStr "::1"]]>
  {[ "resources" := JArr [] ]})).

(** What the nested [run()] does, preceded by the daemon's start when
    the worker is to be daemonized. *)
Definition run_events (config : Config) : list event :=
  (if worker_daemonize config
   then [EvDaemonStart (worker_pid_file config)] else [])
  ++ [EvInfo "Running" []; EvChangeResourceLimit (soft_file_limit config)]
  ++ (if truthy (gc_thresholds config)
      then [EvGcSetThreshold (gc_thresholds config)] else [])
  ++ [EvReactorRun].

Definition stderr (t : list event) : list string :=
  omap (fun e => match e with EvStderr text => Some text | _ => None end) t.

Definition reactor_runs (t : list event) : nat :=
  length (omap (fun e => match e with EvReactorRun => Some tt | _ => None end)
               t).

End Worker.


(** * The replication loop: proofs *)

Module AppserviceProofs.

Import Mon Appservice.
Local Open Scope py_scope.

(** ** One turn of the loop, case by case *)

Section Turn.
Context {S : Type} `{ReplicaStore S}.
Variable env : Env.
Variable url : string.

Lemma replicate_results_spec (result : json) (w : world S) :
  inlineCallbacks (replicate_results env result) w
  = (Returned
       (match py_get result "events" with
        | Returned stream =>
            if truthy stream then
              match py_getitem stream "position" with
              | Returned p =>
                  match notify_interested_services env (polls w) p with
                  | inr d => d
                  | inl e => Failed e
                  end
              | Raised e => Failed e
              | Suspended => Pending
              end
            else Fired tt
        | Raised e => Failed e
        | Suspended => Pending
        end),
     w, map EvNotify (dispatch_args result)).
Proof.
  unfold inlineCallbacks, replicate_results, dispatch_args, bind, lift.
  destruct (py_get result "events") as [stream | e |]; try reflexivity.
  destruct (truthy stream); try reflexivity.
  destruct (py_getitem stream "position") as [p | e |]; try reflexivity.
  unfold call_notify, bind, emit, get, yield_, ret, raise. simpl.
  destruct (notify_interested_services env (polls w) p) as [e | [[] | e |]];
    reflexivity.
Qed.

(** A turn whose request fails. *)
Lemma iteration_request_failed (w : world S) dur e :
  get_json env (polls w) url (timeout_args (stream_positions (store w)))
  = (dur, inl e) ->
  iteration env url w
  = (Returned tt,
     World (store w) (now w + dur + 30)%nat (Datatypes.S (polls w)),
     [EvGetJson url (timeout_args (stream_positions (store w)));
      EvGotJson (inl e);
      EvLogException log_msg url;
      EvSleep 30]).
Proof.
  intros Hget.
  unfold iteration, try_except, bind, call_stream_positions, call_get_json,
    bind, emit, get, put, lift. simpl.
  unfold timeout_args in Hget. rewrite Hget. simpl.
  reflexivity.
Qed.

(** A turn whose request succeeds and whose apply fails. *)
Lemma iteration_apply_failed (w : world S) dur result e st :
  get_json env (polls w) url (timeout_args (stream_positions (store w)))
  = (dur, inr result) ->
  process_replication (store w) result = (Some e, st) ->
  iteration env url w
  = (Returned tt,
     World st (now w + dur + 30)%nat (Datatypes.S (polls w)),
     [EvGetJson url (timeout_args (stream_positions (store w)));
      EvGotJson (inr result);
      EvProcessReplication result (Some e);
      EvLogException log_msg url;
      EvSleep 30]).
Proof.
  intros Hget Happly.
  unfold iteration, try_except, bind, call_stream_positions, call_get_json,
    call_process_replication, bind, emit, get, put, lift, raise. simpl.
  unfold timeout_args in Hget. rewrite Hget. simpl.
  rewrite Happly. simpl. reflexivity.
Qed.

(** A turn whose request and apply both succeed. *)
Lemma iteration_succeeded (w : world S) dur result st :
  get_json env (polls w) url (timeout_args (stream_positions (store w)))
  = (dur, inr result) ->
  process_replication (store w) result = (None, st) ->
  iteration env url w
  = (Returned tt,
     World st (now w + dur)%nat (Datatypes.S (polls w)),
     [EvGetJson url (timeout_args (stream_positions (store w)));
      EvGotJson (inr result);
      EvProcessReplication result None]
     ++ map EvNotify (dispatch_args result)).
Proof.
  intros Hget Happly.
  unfold iteration, try_except, bind at 1 2 3 4.
  unfold call_stream_positions, call_get_json,
    call_process_replication, bind, emit, get, put, lift, ret. simpl.
  unfold timeout_args in Hget. rewrite Hget. simpl.
  rewrite Happly. simpl.
  rewrite replicate_results_spec. simpl. rewrite app_nil_r. reflexivity.
Qed.

(** Running one more turn. *)
Lemma replicate_S (n : nat) (w : world S) :
  ended (iteration env url w) = Returned tt ->
  replicate env url (Datatypes.S n) w
  = (ended (replicate env url n (final (iteration env url w))),
     final (replicate env url n (final (iteration env url w))),
     events (iteration env url w)
     ++ events (replicate env url n (final (iteration env url w)))).
Proof.
  unfold ended, final, events. simpl. unfold bind.
  destruct (iteration env url w) as [[r w1] t1]. simpl.
  intros ->.
  destruct (replicate env url n w1) as [[r2 w2] t2]. reflexivity.
Qed.
End Turn.

(** Splits on how the turn from [w] goes and rewrites [iteration] with the
    matching case lemma. *)
Ltac turn_cases env url w :=
  let dur := fresh "dur" in
  let r := fresh "r" in
  let Hget := fresh "Hget" in
  let Happly := fresh "Happly" in
  let e := fresh "e" in
  let result := fresh "result" in
  let failure := fresh "failure" in
  let st := fresh "st" in
  destruct (get_json env (polls w) url
              (timeout_args (stream_positions (store w))))
    as [dur [e | result]] eqn:Hget;
  [ rewrite (iteration_request_failed env url w dur e Hget)
  | destruct (process_replication (store w) result)
      as [[e |] st] eqn:Happly;
    [ rewrite (iteration_apply_failed env url w dur result e st Hget Happly)
    | rewrite (iteration_succeeded env url w dur result st Hget Happly) ] ].

Section Claims.
Context {S : Type} `{ReplicaStore S}.
Variable env : Env.
Variable url : string.

Lemma iteration_returns (w : world S) :
  ended (iteration env url w) = Returned tt.
Proof. turn_cases env url w; reflexivity. Qed.

Lemma iteration_polls (w : world S) :
  polls (final (iteration env url w)) = Datatypes.S (polls w).
Proof. turn_cases env url w; reflexivity. Qed.

Lemma iteration_requests (w : world S) :
  requests (events (iteration env url w))
  = [(url, timeout_args (stream_positions (store w)))].
Proof.
  turn_cases env url w; try reflexivity.
  unfold events, requests. simpl.
  induction (dispatch_args result); [reflexivity | simpl; assumption].
Qed.

Lemma replicate_step (n : nat) (w : world S) :
  replicate env url (Datatypes.S n) w
  = (ended (replicate env url n (final (iteration env url w))),
     final (replicate env url n (final (iteration env url w))),
     events (iteration env url w)
     ++ events (replicate env url n (final (iteration env url w)))).
Proof. apply replicate_S, iteration_returns. Qed.

Lemma replicate_returns (n : nat) (w : world S) :
  ended (replicate env url n w) = Returned tt.
Proof.
  revert w. induction n as [| n IH]; intros w; [reflexivity |].
  rewrite replicate_step. apply IH.
Qed.

Lemma replicate_events (n : nat) (w : world S) :
  events (replicate env url n w)
  = concat (map (fun w' => events (iteration env url w'))
                (starts env url n w)).
Proof.
  revert w. induction n as [| n IH]; intros w; [reflexivity |].
  rewrite replicate_step. unfold events at 1. simpl.
  rewrite IH. reflexivity.
Qed.
End Claims.

(** ** Dispatch on a successful turn *)

Lemma notifications_EvNotify (l : list json) :
  notifications (map EvNotify l) = l.
Proof. induction l as [| p l IH]; [reflexivity | simpl; f_equal; exact IH]. Qed.

Lemma backoffs_EvNotify (l : list json) : backoffs (map EvNotify l) = [].
Proof. induction l as [| p l IH]; [reflexivity | exact IH]. Qed.

Lemma logged_EvNotify (l : list json) : logged (map EvNotify l) = [].
Proof. induction l as [| p l IH]; [reflexivity | exact IH]. Qed.

Lemma dispatch_args_entry (fields entry : gmap string json) (pos : json) :
  fields !! "events" = Some (JObj entry) ->
  entry !! "position" = Some pos ->
  dispatch_args (JObj fields) = [pos].
Proof.
  intros Hev Hpos. unfold dispatch_args. simpl. rewrite Hev. simpl.
  rewrite bool_decide_eq_false_2.
  - simpl. rewrite Hpos. reflexivity.
  - intros ->. rewrite lookup_empty in Hpos. discriminate.
Qed.

Lemma dispatch_args_absent (fields : gmap string json) :
  fields !! "events" = None -> dispatch_args (JObj fields) = [].
Proof. intros Hev. unfold dispatch_args. simpl. rewrite Hev. reflexivity. Qed.

Section ClaimsPerTurn.
Context {S : Type} `{ReplicaStore S}.
Variable env : Env.
Variable url : string.

(** C1. In a turn whose request and apply both succeed, a response with
    an [events] entry makes the loop call [notify_interested_services]
    exactly once, with that entry's [position]; a response without an
    [events] entry makes it call the dispatcher not at all. *)
Theorem C1_dispatch_once_with_position (w : world S) dur result st :
  get_json env (polls w) url (timeout_args (stream_positions (store w)))
  = (dur, inr result) ->
  process_replication (store w) result = (None, st) ->
  (forall fields entry pos,
      result = JObj fields ->
      fields !! "events" = Some (JObj entry) ->
      entry !! "position" = Some pos ->
      notifications (events (iteration env url w)) = [pos])
  /\ (forall fields,
        result = JObj fields ->
        fields !! "events" = None ->
        notifications (events (iteration env url w)) = []).
Proof.
  intros Hget Happly.
  rewrite (iteration_succeeded env url w dur result st Hget Happly).
  unfold events. simpl. rewrite notifications_EvNotify.
  split.
  - intros fields entry pos -> Hev Hpos.
    exact (dispatch_args_entry fields entry pos Hev Hpos).
  - intros fields -> Hev. exact (dispatch_args_absent fields Hev).
Qed.

(** C2. A turn in which the request or the apply fails ends normally
    after logging the failure with the replication URL and sleeping 30;
    the next turn then starts.  Given a store whose failed apply leaves
    the positions alone, the positions are those of before the turn and
    the next request equals the failed one. *)
Theorem C2_failed_turn_backs_off_and_retries (w : world S) :
  failed_apply_keeps_positions S ->
  turn_fails env url w ->
  let out := iteration env url w in
  ended out = Returned tt
  /\ (exists before,
        events out = before ++ [EvLogException log_msg url; EvSleep 30]
        /\ logged before = [] /\ backoffs before = [])
  /\ now (final out)
     = (now w
        + fst (get_json env (polls w) url
                 (timeout_args (stream_positions (store w))))
        + 30)%nat
  /\ stream_positions (store (final out)) = stream_positions (store w)
  /\ requests (events (iteration env url (final out)))
     = requests (events out)
  /\ (forall n,
        events (replicate env url (Datatypes.S n) w)
        = events out ++ events (replicate env url n (final out))).
Proof.
  intros Hkeep Hfail out.
  assert (Hnext : forall n,
             events (replicate env url (Datatypes.S n) w)
             = events out ++ events (replicate env url n (final out))).
  { intros n. rewrite replicate_step. reflexivity. }
  assert (Hpos : stream_positions (store (final out))
                 = stream_positions (store w)).
  { subst out. unfold turn_fails in Hfail. revert Hfail.
    turn_cases env url w; intros Hfail; try reflexivity.
    - unfold final. simpl. exact (Hkeep _ _ _ _ Happly).
    - contradiction. }
  assert (Hreq : requests (events (iteration env url (final out)))
                 = requests (events out)).
  { subst out. rewrite !iteration_requests. rewrite Hpos. reflexivity. }
  split; [apply iteration_returns |].
  split; [| split; [| split; [exact Hpos | split; [exact Hreq | exact Hnext]]]].
  - subst out. unfold turn_fails in Hfail. revert Hfail. clear Hnext Hpos Hreq.
    turn_cases env url w; intros Hfail.
    + eexists [_; _]. repeat split.
    + eexists [_; _; _]. repeat split.
    + contradiction.
  - subst out. unfold turn_fails in Hfail. revert Hfail. clear Hnext Hpos Hreq.
    turn_cases env url w; intros Hfail; try reflexivity. contradiction.
Qed.

(** C3. When [store.process_replication(result)] raises, the turn is
    handled as a replication failure: the failure is logged with the URL
    and the loop sleeps 30; the dispatcher is not called for that
    response; and, the failed apply having left the positions alone, the
    next turn sends the same request again. *)
Theorem C3_failed_apply_is_a_replication_failure
    (w : world S) dur result e st :
  failed_apply_keeps_positions S ->
  get_json env (polls w) url (timeout_args (stream_positions (store w)))
  = (dur, inr result) ->
  process_replication (store w) result = (Some e, st) ->
  let out := iteration env url w in
  ended out = Returned tt
  /\ events out
     = [EvGetJson url (timeout_args (stream_positions (store w)));
        EvGotJson (inr result);
        EvProcessReplication result (Some e);
        EvLogException log_msg url;
        EvSleep 30]
  /\ logged (events out) = [(log_msg, url)]
  /\ backoffs (events out) = [30%nat]
  /\ notifications (events out) = []
  /\ requests (events (iteration env url (final out)))
     = requests (events out).
Proof.
  intros Hkeep Hget Happly out.
  assert (Hout : out = (Returned tt,
                        World st (now w + dur + 30)%nat (Datatypes.S (polls w)),
                        [EvGetJson url (timeout_args (stream_positions (store w)));
                         EvGotJson (inr result);
                         EvProcessReplication result (Some e);
                         EvLogException log_msg url;
                         EvSleep 30])).
  { subst out. exact (iteration_apply_failed env url w dur result e st Hget Happly). }
  rewrite Hout. repeat split.
  rewrite iteration_requests. unfold final, events, requests. simpl.
  rewrite (Hkeep _ _ _ _ Happly). reflexivity.
Qed.
End ClaimsPerTurn.

(** ** The datastores of the scenarios meet the contracts *)




Lemma apply_batch_failed strict (st st' : gmap string Z) result e :
  apply_batch strict st result = (Some e, st') -> st' = st.
Proof.
  unfold apply_batch.
  destruct (first_failure strict result (map_to_list st)); intros [= ? ?];
    congruence.
Qed.


Lemma lenient_store_keeps :
  failed_apply_keeps_positions (H := lenient_store) (gmap string Z).
Proof. intros st result e st' Happly. exact (apply_batch_failed _ _ _ _ _ Happly). Qed.

Lemma strict_store_keeps :
  failed_apply_keeps_positions (H := strict_store) (gmap string Z).
Proof. intros st result e st' Happly. exact (apply_batch_failed _ _ _ _ _ Happly). Qed.




(** ** The loop over many turns *)



Section ClaimsPerRun.
Context {S : Type} `{ReplicaStore S}.
Variable env : Env.
Variable url : string.

Lemma projection_of_run {B} (f : event -> option B) (n : nat) (w : world S) :
  omap f (events (replicate env url n w))
  = concat (map (fun w' => omap f (events (iteration env url w')))
                (starts env url n w)).
Proof.
  revert w. induction n as [| n IH]; intros w; [reflexivity |].
  rewrite replicate_step. unfold events at 1. simpl.
  rewrite omap_app, IH. reflexivity.
Qed.

Lemma starts_length (n : nat) (w : world S) :
  length (starts env url n w) = n.
Proof.
  revert w. induction n as [| n IH]; intros w; simpl; [| rewrite IH]; reflexivity.
Qed.









(** A turn only reads the dispatcher's answer to throw it away. *)
Lemma iteration_ignores_dispatcher (env' : Env) (w : world S) :
  get_json env' = get_json env ->
  iteration env' url w = iteration env url w.
Proof.
  intros Hsame.
  destruct (get_json env (polls w) url
              (timeout_args (stream_positions (store w))))
    as [dur [e | result]] eqn:Hget.
  - rewrite (iteration_request_failed env url w dur e Hget).
    apply iteration_request_failed. rewrite Hsame. exact Hget.
  - destruct (process_replication (store w) result)
      as [[e |] st] eqn:Happly.
    + rewrite (iteration_apply_failed env url w dur result e st Hget Happly).
      apply iteration_apply_failed; [rewrite Hsame |]; assumption.
    + rewrite (iteration_succeeded env url w dur result st Hget Happly).
      apply iteration_succeeded; [rewrite Hsame |]; assumption.
Qed.

(** C5. However [notify_interested_services] ends (it raises, its
    deferred fails, fires or is still pending), the loop goes on the
    same: its trace, store and clock are those of a run whose dispatcher
    never fails; the loop is not left; and a turn whose request and
    apply succeeded neither logs nor sleeps, so the next turn starts at
    the time the response was applied. *)
Theorem C5_dispatch_failure_never_stops_or_delays
    (notify' : nat -> json -> exn + deferred unit) (n : nat) (w : world S) :
  replicate {| get_json := get_json env;
               notify_interested_services := notify' |} url n w
  = replicate env url n w
  /\ ended (replicate env url n w) = Returned tt
  /\ (forall dur result st,
        get_json env (polls w) url
          (timeout_args (stream_positions (store w))) = (dur, inr result) ->
        process_replication (store w) result = (None, st) ->
        ended (iteration env url w) = Returned tt
        /\ backoffs (events (iteration env url w)) = []
        /\ logged (events (iteration env url w)) = []
        /\ now (final (iteration env url w)) = (now w + dur)%nat).
Proof.
  split; [| split].
  - revert w. induction n as [| n IH]; intros w; [reflexivity |].
    rewrite !replicate_step.
    rewrite (iteration_ignores_dispatcher
               {| get_json := get_json env;
                  notify_interested_services := notify' |} w eq_refl).
    rewrite IH. reflexivity.
  - apply replicate_returns.
  - intros dur result st Hget Happly.
    rewrite (iteration_succeeded env url w dur result st Hget Happly).
    unfold ended, events, final, backoffs, logged. simpl.
    fold (backoffs (map EvNotify (dispatch_args result))).
    fold (logged (map EvNotify (dispatch_args result))).
    rewrite backoffs_EvNotify, logged_EvNotify. repeat split.
Qed.

Lemma run_requests (n : nat) (w : world S) :
  requests (events (replicate env url n w))
  = map (fun w' => (url, <["timeout" := 30000]>
                           (stream_positions (store w'))))
        (starts env url n w).
Proof.
  unfold requests. rewrite projection_of_run.
  induction (starts env url n w) as [| w' l IH]; [reflexivity |].
  simpl. rewrite <- IH.
  fold (requests (events (iteration env url w'))).
  rewrite iteration_requests. reflexivity.
Qed.

(** C6. The requests of a run are, turn by turn, a GET of the
    replication URL whose arguments are the mapping returned by
    [stream_positions] at the head of that turn with [timeout] set to
    30000: the [timeout] argument is 30000, every other argument is the
    store's position for the stream of that name, and there are no
    further arguments. *)
Theorem C6_request_carries_positions_and_timeout (n : nat) (w : world S) :
  requests (events (replicate env url n w))
  = map (fun w' => (url, <["timeout" := 30000]>
                           (stream_positions (store w'))))
        (starts env url n w)
  /\ (forall w' : world S,
        <["timeout" := 30000]> (stream_positions (store w')) !! "timeout"
        = Some 30000
        /\ delete "timeout"
             (<["timeout" := 30000]> (stream_positions (store w')))
           = delete "timeout" (stream_positions (store w'))).
Proof.
  split.
  - apply run_requests.
  - intros w'. split.
    + apply lookup_insert_eq.
    + apply delete_insert_eq.
Qed.

Lemma starts_spacing_when_unreachable (n : nat) (w : world S) :
  unreachable env ->
  forall i a b,
    starts env url n w !! i = Some a ->
    starts env url n w !! Datatypes.S i = Some b ->
    (now a + 30 <= now b)%nat.
Proof.
  intros Hdown. revert w.
  induction n as [| n IH]; intros w i a b Ha Hb; [discriminate |].
  simpl in Ha, Hb. destruct i as [| i].
  - injection Ha as <-.
    destruct n as [| n]; [discriminate |].
    simpl in Hb. injection Hb as <-.
    destruct (Hdown (polls w) url
                (timeout_args (stream_positions (store w)))) as [e He].
    destruct (get_json env (polls w) url
                (timeout_args (stream_positions (store w))))
      as [dur r] eqn:Hget.
    simpl in He. subst r.
    rewrite (iteration_request_failed env url w dur e Hget). simpl. lia.
  - exact (IH _ i a b Ha Hb).
Qed.

Lemma turn_when_unreachable (w : world S) :
  unreachable env ->
  backoffs (events (iteration env url w)) = [30%nat]
  /\ received (events (iteration env url w)) = [].
Proof.
  intros Hdown.
  destruct (Hdown (polls w) url
              (timeout_args (stream_positions (store w)))) as [e He].
  destruct (get_json env (polls w) url
              (timeout_args (stream_positions (store w))))
    as [dur r] eqn:Hget.
  simpl in He. subst r.
  rewrite (iteration_request_failed env url w dur e Hget).
  split; reflexivity.
Qed.

(** C7. The loop has no way out: every turn, failed or not, ends
    normally and is followed by the next, so a run of [n] turns sends
    [n] requests, for every [n].  Against a primary that is never
    reachable every turn fails and sleeps 30, and two successive
    attempts start at least 30 time units apart. *)
Theorem C7_loop_never_ends (n : nat) (w : world S) :
  (forall w' : world S, ended (iteration env url w') = Returned tt)
  /\ ended (replicate env url n w) = Returned tt
  /\ replicate env url (Datatypes.S n) w
     = (ended (replicate env url n (final (iteration env url w))),
        final (replicate env url n (final (iteration env url w))),
        events (iteration env url w)
        ++ events (replicate env url n (final (iteration env url w))))
  /\ length (requests (events (replicate env url n w))) = n
  /\ (unreachable env ->
      received (events (replicate env url n w)) = []
      /\ backoffs (events (replicate env url n w)) = repeat 30%nat n
      /\ forall i a b,
           starts env url n w !! i = Some a ->
           starts env url n w !! Datatypes.S i = Some b ->
           (now a + 30 <= now b)%nat).
Proof.
  split; [exact (iteration_returns env url) |].
  split; [apply replicate_returns |].
  split; [apply replicate_step |].
  split.
  - rewrite run_requests, length_map. apply starts_length.
  - intros Hdown. split; [| split].
    + unfold received. rewrite projection_of_run.
      induction (starts env url n w) as [| w' l IH]; [reflexivity |].
      simpl. rewrite IH.
      fold (received (events (iteration env url w'))).
      rewrite (proj2 (turn_when_unreachable w' Hdown)). reflexivity.
    + unfold backoffs. rewrite projection_of_run.
      generalize (starts_length n w).
      generalize (starts env url n w).
      induction n as [| n IH]; intros [| w' l] Hlen; simpl in *;
        try discriminate; [reflexivity |].
      fold (backoffs (events (iteration env url w'))).
      rewrite (proj1 (turn_when_unreachable w' Hdown)). simpl. f_equal.
      apply IH. lia.
    + exact (starts_spacing_when_unreachable n w Hdown).
Qed.
End ClaimsPerRun.

(** ** The scenarios, run *)

(** C1 at the scenario of the spec: positions [{events: 0}], the primary
    answers [{events: {position: 5, rows: [...5 rows...]}}]; the dispatcher
    is called once, with 5.  The next poll times out with no [events]
    entry and the dispatcher is not called. *)
Lemma C1_witness_five_events :
  (get_json env_five_then_quiet 0 primary_url
     (timeout_args {[ "events" := 0 ]})
   = (7%nat, inr (events_batch (JNum 5) five_rows))
   /\ apply_batch false {[ "events" := 0 ]} (events_batch (JNum 5) five_rows)
      = (None, {[ "events" := 5 ]})
   /\ notifications
        (events (iteration (H := lenient_store) env_five_then_quiet
                   primary_url fresh_worker))
      = [JNum 5])
  /\ notifications
       (events (iteration (H := lenient_store) env_five_then_quiet
                  primary_url (World {[ "events" := 5 ]} 7 1)))
     = [].
Proof.
  assert (Hget : get_json env_five_then_quiet 0 primary_url
                   (timeout_args {[ "events" := 0 ]})
                 = (7%nat, inr (events_batch (JNum 5) five_rows)))
    by reflexivity.
  assert (Happly : apply_batch false {[ "events" := 0 ]}
                     (events_batch (JNum 5) five_rows)
                   = (None, {[ "events" := 5 ]}))
    by (vm_compute; reflexivity).
  split; [split; [exact Hget | split; [exact Happly |]] |].
  - refine (proj1 (C1_dispatch_once_with_position (H := lenient_store)
                     env_five_then_quiet primary_url fresh_worker
                     7%nat _ _ Hget Happly) _ _ _ eq_refl _ _);
      vm_compute; reflexivity.
  - refine (proj2 (C1_dispatch_once_with_position (H := lenient_store)
                     env_five_then_quiet primary_url
                     (World {[ "events" := 5 ]} 7 1)
                     30%nat (JObj ∅) {[ "events" := 5 ]} _ _) _ eq_refl _);
      vm_compute; reflexivity.
Defined.

(** C2 at a refused connection: the turn logs, sleeps 30 and the next
    request is the same. *)
Lemma C2_witness_connection_refused :
  let w : world (gmap string Z) := World {[ "events" := 5 ]} 37 2 in
  let out := iteration (H := lenient_store) env_five_then_quiet primary_url w in
  turn_fails (H := lenient_store) env_five_then_quiet primary_url w
  /\ ended out = Returned tt
  /\ now (final out) = 67%nat
  /\ @stream_positions _ lenient_store (store (final out))
     = {[ "events" := 5 ]}
  /\ requests (events (iteration (H := lenient_store) env_five_then_quiet
                         primary_url (final out)))
     = requests (events out).
Proof.
  intros w out.
  assert (Hfails : turn_fails (H := lenient_store) env_five_then_quiet
                     primary_url w) by exact I.
  destruct (C2_failed_turn_backs_off_and_retries (H := lenient_store)
              env_five_then_quiet primary_url w lenient_store_keeps Hfails)
    as (Hended & _ & Hnow & Hpos & Hreq & _).
  split; [exact Hfails |]. split; [exact Hended |].
  split; [exact Hnow |]. split; [exact Hpos | exact Hreq].
Defined.

(** C3 at a batch the store cannot use: no dispatch, log and backoff, the
    same request again. *)
Lemma C3_witness_unusable_batch :
  let out := iteration (H := lenient_store) env_bad_batch primary_url
               fresh_worker in
  apply_batch false {[ "events" := 0 ]} (events_batch (JStr "five") [])
  = (Some TypeError, {[ "events" := 0 ]})
  /\ notifications (events out) = []
  /\ backoffs (events out) = [30%nat]
  /\ logged (events out) = [(log_msg, primary_url)]
  /\ requests (events (iteration (H := lenient_store) env_bad_batch
                         primary_url (final out)))
     = requests (events out).
Proof.
  intros out.
  assert (Happly : apply_batch false {[ "events" := 0 ]}
                     (events_batch (JStr "five") [])
                   = (Some TypeError, {[ "events" := 0 ]}))
    by (vm_compute; reflexivity).
  destruct (C3_failed_apply_is_a_replication_failure (H := lenient_store)
              env_bad_batch primary_url fresh_worker 1%nat
              (events_batch (JStr "five") []) TypeError {[ "events" := 0 ]}
              lenient_store_keeps eq_refl Happly)
    as (_ & _ & Hlog & Hsleep & Hnot & Hreq).
  split; [exact Happly |]. split; [exact Hnot |]. split; [exact Hsleep |].
  split; [exact Hlog | exact Hreq].
Defined.



(** C5 where every dispatch raises. *)
Lemma C5_witness_appservice_down :
  let out := iteration (H := lenient_store) env_five_then_quiet primary_url
               fresh_worker in
  notifications (events out) = [JNum 5]
  /\ ended out = Returned tt
  /\ backoffs (events out) = []
  /\ logged (events out) = []
  /\ now (final out) = 7%nat.
Proof.
  intros out.
  assert (Happly : apply_batch false {[ "events" := 0 ]}
                     (events_batch (JNum 5) five_rows)
                   = (None, {[ "events" := 5 ]}))
    by (vm_compute; reflexivity).
  split; [vm_compute; reflexivity |].
  exact (proj2 (proj2 (C5_dispatch_failure_never_stops_or_delays
                         (H := lenient_store) env_five_then_quiet primary_url
                         appservice_down 1 fresh_worker))
           7%nat (events_batch (JNum 5) five_rows) {[ "events" := 5 ]}
           eq_refl Happly).
Defined.

(** C6 on the first three turns of the scenario. *)
Example C6_example_three_requests :
  map (fun '(u, a) => (u, map_to_list a))
      (requests
         (events (replicate (H := lenient_store) env_five_then_quiet
                    primary_url 3 fresh_worker)))
  = [(primary_url, [("events", 0); ("timeout", 30000)]);
     (primary_url, [("events", 5); ("timeout", 30000)]);
     (primary_url, [("events", 5); ("timeout", 30000)])].
Proof. vm_compute. reflexivity. Qed.

Lemma env_unreachable_is_unreachable : unreachable env_unreachable.
Proof. intros k url args. eexists. reflexivity. Qed.

(** C7 against a primary that is never there: three turns, three failed
    attempts, 30 apart. *)
Lemma C7_witness_unreachable_primary :
  unreachable env_unreachable
  /\ backoffs
       (events (replicate (H := lenient_store) env_unreachable primary_url 3
                  fresh_worker))
     = [30%nat; 30%nat; 30%nat]
  /\ map now (starts (H := lenient_store) env_unreachable primary_url 3
                fresh_worker)
     = [0%nat; 30%nat; 60%nat].
Proof.
  split; [exact env_unreachable_is_unreachable |].
  split; [| vm_compute; reflexivity].
  exact (proj1 (proj2 (proj2 (proj2 (proj2 (proj2
           (C7_loop_never_ends (H := lenient_store) env_unreachable
              primary_url 3 fresh_worker))))
           env_unreachable_is_unreachable))).
Defined.

End AppserviceProofs.


(** * The room hierarchy servlet: proofs *)

Module RoomHierarchyProofs.

Import Mon RoomHierarchy.
Local Open Scope py_scope.

(** ** Taking a finished computation apart *)

Lemma bind_returned {W E A B} (m : Mon.M W E A) (k : A -> Mon.M W E B)
    (w w2 : W) (b : B) (t : list E) :
  bind m k w = (Returned b, w2, t) ->
  exists a w1 t1 t2,
    m w = (Returned a, w1, t1)
    /\ k a w1 = (Returned b, w2, t2)
    /\ t = t1 ++ t2.
Proof.
  unfold bind.
  destruct (m w) as [[[a | e |] w1] t1]; try discriminate.
  destruct (k a w1) as [[r w2'] t2] eqn:Hk.
  intros [= -> -> <-]. exists a, w1, t1, t2. auto.
Qed.

Section ServletFacts.
Context {DB : Type}.
Variable hs : Homeserver DB.

Lemma read_returned {A} (ev : event) (f : DB -> exn + A)
    (w w1 : world DB) (a : A) (t : list event) :
  read ev f w = (Returned a, w1, t) ->
  f (db w) = inr a /\ w1 = w /\ t = [ev].
Proof.
  unfold read, bind, emit, get, lift, of_sum. simpl.
  destruct (f (db w)) as [e | a']; [discriminate |].
  intros [= -> <- <-]. auto.
Qed.

Lemma admin_returned (u : UserID) (w w1 : world DB) (t : list event) :
  call_assert_user_is_admin hs u w = (Returned tt, w1, t) ->
  assert_user_is_admin hs (db w) u = None /\ w1 = w /\ t = [EvAssertAdmin].
Proof.
  unfold call_assert_user_is_admin, bind, emit, get, ret, raise. simpl.
  destruct (assert_user_is_admin hs (db w) u) as [e |]; [discriminate |].
  intros [= <- <-]. auto.
Qed.

(** *** The loop over [rooms_to_check] *)

Lemma read_join_rules_returned (room_id : string) (w w1 : world DB)
    (join_rules : option json) (t : list event) :
  read_join_rules hs room_id w = (Returned join_rules, w1, t) ->
  join_rules = join_rules_of hs (db w) room_id
  /\ w1 = w /\ updates t = [] /\ fetched t = [].
Proof.
  unfold read_join_rules, join_rules_of. intros Hrun.
  apply bind_returned in Hrun as (ids & w' & t1 & t2 & Hids & Hrest & ->).
  apply read_returned in Hids as (Hids & -> & ->). rewrite Hids.
  destruct (ids !! (EventTypes_JoinRules, EmptyString)) as [ev |].
  - apply bind_returned in Hrest as (event & w' & t1 & t3 & Hev & Hret & ->).
    apply read_returned in Hev as (Hev & -> & ->). rewrite Hev.
    unfold ret in Hret. injection Hret as <- <- <-. auto.
  - unfold ret in Hrest. injection Hrest as <- <- <-. auto.
Qed.

Lemma check_room_returned (acc acc' : gset string) (room_id : string)
    (w w1 : world DB) (t : list event) :
  check_room hs acc room_id w = (Returned acc', w1, t) ->
  acc' = (if decide (non_public hs (db w) room_id)
          then {[ room_id ]} ∪ acc else acc)
  /\ w1 = w /\ updates t = [] /\ fetched t = [].
Proof.
  unfold check_room. intros Hrun.
  apply bind_returned in Hrun as (jr & w' & t1 & t2 & Hjr & Hret & ->).
  apply read_join_rules_returned in Hjr as (-> & -> & Hup & Hfe).
  unfold updates, fetched in *. rewrite !omap_app, Hup, Hfe.
  destruct (decide (non_public hs (db w) room_id)) as [Hnp | Hp].
  - unfold non_public in Hnp. rewrite Hnp in Hret. simpl in Hret.
    unfold ret in Hret. injection Hret as <- <- <-. auto.
  - unfold non_public in Hp.
    destruct (is_public (join_rules_of hs (db w) room_id)); [| contradiction].
    simpl in Hret. unfold ret in Hret. injection Hret as <- <- <-. auto.
Qed.

Lemma check_loop_returned (rooms : list string) :
  forall (acc acc' : gset string) (w w1 : world DB) (t : list event),
    foldM (check_room hs) acc rooms w = (Returned acc', w1, t) ->
    acc' = acc ∪ filter (non_public hs (db w)) (list_to_set rooms)
    /\ w1 = w /\ updates t = [] /\ fetched t = [].
Proof.
  induction rooms as [| room_id rest IH]; intros acc acc' w w1 t Hrun.
  - simpl in Hrun. unfold ret in Hrun. revert Hrun. intros [= <- <- <-].
    split; [| auto].
    simpl. apply set_eq. intros x.
    rewrite elem_of_union, elem_of_filter, elem_of_empty. tauto.
  - simpl in Hrun.
    apply bind_returned in Hrun as (acc1 & w' & t1 & t2 & Hstep & Hrest & ->).
    apply check_room_returned in Hstep as (-> & -> & Hup1 & Hfe1).
    apply IH in Hrest as (-> & -> & Hup2 & Hfe2).
    unfold updates, fetched in *. rewrite !omap_app, Hup1, Hup2, Hfe1, Hfe2.
    split; [| auto].
    simpl. apply set_eq. intros x.
    destruct (decide (non_public hs (db w) room_id)) as [Hnp | Hp];
      rewrite ?elem_of_union, ?elem_of_filter, ?elem_of_union,
        ?elem_of_singleton;
      intuition (subst; tauto).
Qed.

(** *** Building [failures] *)

Lemma failures_loop_spec (rooms : list string) :
  forall (acc : gmap string nat) (w : world DB),
  exists acc' heap',
    foldM new_failure acc rooms w = (Returned acc', World (db w) heap', [])
    /\ dom acc' = dom acc ∪ list_to_set rooms.
Proof.
  induction rooms as [| room_id rest IH]; intros acc w.
  - exists acc, (heap w). destruct w as [d h]. split; [reflexivity |].
    simpl. apply set_eq. intros x. rewrite elem_of_union, elem_of_empty. tauto.
  - destruct (IH (<[room_id := length (heap w)]> acc)
                (World (db w)
                   (heap w ++ [["Could not fully explore space or room."]])))
      as (acc' & heap' & Hrun & Hdom).
    exists acc', heap'. split.
    + simpl. unfold bind at 1. unfold new_failure at 1.
      unfold new_list, bind, get, put, ret. simpl.
      simpl in Hrun. rewrite Hrun. reflexivity.
    + rewrite Hdom, dom_insert_L. simpl.
      apply set_eq. intros x. rewrite !elem_of_union. tauto.
Qed.

(** *** The loop over [rooms_to_leave] *)

Lemma leave_room_spec (requester : Requester) (target : UserID)
    (failures : gmap string nat) (left_rooms : list string)
    (room_id : string) (w : world DB) :
  exists heap',
    leave_room hs requester target failures left_rooms room_id w
    = (Returned
         (match fst (update_membership hs (db w) requester target room_id
                       Membership_LEAVE) with
          | None => left_rooms ++ [room_id]
          | Some _ => left_rooms
          end),
       World (snd (update_membership hs (db w) requester target room_id
                     Membership_LEAVE)) heap',
       [EvUpdateMembership room_id Membership_LEAVE
          (fst (update_membership hs (db w) requester target room_id
                  Membership_LEAVE))]).
Proof.
  unfold leave_room, try_except, call_update_membership, failures_get,
    new_list, list_append, bind, get, put, emit, ret, raise. simpl.
  destruct (update_membership hs (db w) requester target room_id
              Membership_LEAVE) as [[e |] d1]; simpl;
    eexists; reflexivity.
Qed.

Lemma leave_loop_spec (requester : Requester) (target : UserID)
    (failures : gmap string nat) (rooms : list string) :
  forall (left_rooms : list string) (w : world DB),
  exists heap',
    foldM (leave_room hs requester target failures) left_rooms rooms w
    = (Returned
         (left_rooms
          ++ succeeded (fst (leave_outcomes hs requester target (db w) rooms))),
       World (snd (leave_outcomes hs requester target (db w) rooms)) heap',
       map (fun o => EvUpdateMembership (fst o) Membership_LEAVE (snd o))
           (fst (leave_outcomes hs requester target (db w) rooms))).
Proof.
  induction rooms as [| room_id rest IH]; intros left_rooms w.
  - exists (heap w). destruct w as [d h]. simpl. unfold ret.
    rewrite app_nil_r. reflexivity.
  - destruct (leave_room_spec requester target failures left_rooms room_id w)
      as [heap1 Hstep].
    simpl. unfold bind at 1. rewrite Hstep.
    destruct (update_membership hs (db w) requester target room_id
                Membership_LEAVE) as [failure d1]. simpl.
    destruct (IH (match failure with
                  | None => left_rooms ++ [room_id]
                  | Some _ => left_rooms
                  end) (World d1 heap1)) as [heap' Hrest].
    rewrite Hrest. simpl.
    destruct (leave_outcomes hs requester target d1 rest) as [outcomes d2].
    exists heap'. simpl.
    destruct failure as [e |]; unfold succeeded; simpl;
      [| rewrite <- app_assoc]; reflexivity.
Qed.

Lemma updates_of_leaves (outcomes : list (string * option exn)) :
  updates (map (fun o => EvUpdateMembership (fst o) Membership_LEAVE (snd o))
               outcomes)
  = map (fun o => (fst o, Membership_LEAVE, snd o)) outcomes.
Proof.
  induction outcomes as [| o rest IH]; [reflexivity |].
  simpl. f_equal. exact IH.
Qed.

Lemma fetched_of_leaves (outcomes : list (string * option exn)) :
  fetched (map (fun o => EvUpdateMembership (fst o) Membership_LEAVE (snd o))
               outcomes)
  = [].
Proof. induction outcomes as [| o rest IH]; [reflexivity | exact IH]. Qed.

(** *** A request that is answered *)

Lemma on_DELETE_returned (request space_id user_id : string)
    (w w' : world DB) (status : Z) (body : reply) (t : list event) :
  on_DELETE hs request space_id user_id w = (Returned (status, body), w', t) ->
  exists requester resolved target user_rooms hierarchy,
    get_user_by_req hs (db w) request = inr requester
    /\ assert_user_is_admin hs (db w) (user requester) = None
    /\ resolve_room_id hs (db w) space_id = inr resolved
    /\ UserID_from_string hs user_id = inr target
    /\ is_mine hs target = true
    /\ get_rooms_for_local_user_where_membership_is hs (db w) user_id
         [Membership_INVITE; Membership_JOIN; Membership_KNOCK]
       = inr user_rooms
    /\ get_room_descendants hs (db w) (fst resolved) = inr hierarchy
    /\ status = 200
    /\ left body
       = succeeded
           (fst (leave_outcomes hs
                   (create_requester target (to_string (user requester)))
                   target (db w)
                   (elements (rooms_to_leave_of hs (db w) (fst resolved)
                                user_rooms (fst hierarchy)))))
    /\ dom (failed body) = list_to_set (snd hierarchy)
    /\ db w'
       = snd (leave_outcomes hs
                (create_requester target (to_string (user requester)))
                target (db w)
                (elements (rooms_to_leave_of hs (db w) (fst resolved)
                             user_rooms (fst hierarchy))))
    /\ updates t
       = map (fun o => (fst o, Membership_LEAVE, snd o))
           (fst (leave_outcomes hs
                   (create_requester target (to_string (user requester)))
                   target (db w)
                   (elements (rooms_to_leave_of hs (db w) (fst resolved)
                                user_rooms (fst hierarchy)))))
    /\ fetched t = [user_id].
Proof.
  unfold on_DELETE. intros Hrun.
  apply bind_returned in Hrun as (requester & w1 & t1 & t1' & Hreq & Hrun & ->).
  apply read_returned in Hreq as (Hreq & -> & ->).
  apply bind_returned in Hrun as ([] & w1 & t2 & t2' & Hadm & Hrun & ->).
  apply admin_returned in Hadm as (Hadm & -> & ->).
  apply bind_returned in Hrun as (resolved & w1 & t3 & t3' & Hres & Hrun & ->).
  apply read_returned in Hres as (Hres & -> & ->).
  cbv beta zeta in Hrun.
  apply bind_returned in Hrun as (target & w1 & t4 & t4' & Htgt & Hrun & ->).
  unfold lift, of_sum in Htgt.
  destruct (UserID_from_string hs user_id) as [e | target'] eqn:Hparse;
    [discriminate |].
  injection Htgt as -> <- <-.
  destruct (is_mine hs target) eqn:Hmine; simpl in Hrun;
    [| unfold raise in Hrun; discriminate].
  apply bind_returned in Hrun as (user_rooms & w1 & t5 & t5' & Hrooms & Hrun & ->).
  apply read_returned in Hrooms as (Hrooms & -> & ->).
  apply bind_returned in Hrun as (hierarchy & w1 & t6 & t6' & Hdesc & Hrun & ->).
  apply read_returned in Hdesc as (Hdesc & -> & ->).
  apply bind_returned in Hrun as (to_leave & w1 & t7 & t7' & Hcheck & Hrun & ->).
  apply check_loop_returned in Hcheck as (-> & -> & Hup7 & Hfe7).
  rewrite list_to_set_elements_L in Hrun.
  fold (rooms_to_leave_of hs (db w) (fst resolved) user_rooms (fst hierarchy))
    in Hrun.
  apply bind_returned in Hrun as (failures & w1 & t8 & t8' & Hfail & Hrun & ->).
  destruct (failures_loop_spec (snd hierarchy) ∅ w)
    as (failures' & heap1 & Hfail' & Hdom).
  rewrite Hfail' in Hfail. injection Hfail as <- <- <-.
  apply bind_returned in Hrun as (left_rooms & w2 & t9 & t9' & Hleave & Hrun & ->).
  destruct (leave_loop_spec
              (create_requester target (to_string (user requester))) target
              failures'
              (elements (rooms_to_leave_of hs (db w) (fst resolved)
                           user_rooms (fst hierarchy)))
              [] (World (db w) heap1)) as (heap2 & Hleave').
  rewrite Hleave' in Hleave. injection Hleave as <- <- <-.
  unfold bind, get, ret in Hrun. simpl in Hrun.
  injection Hrun as <- <- <- <-.
  exists requester, resolved, target, user_rooms, hierarchy.
  do 7 (split; [first [assumption | reflexivity] |]).
  split; [reflexivity |].
  split; [reflexivity |].
  split.
  { simpl. rewrite dom_fmap_L, Hdom, dom_empty_L.
    apply set_eq. intros x. rewrite elem_of_union, elem_of_empty. tauto. }
  split; [reflexivity |].
  unfold updates, fetched in *. rewrite !omap_app, Hup7, Hfe7. simpl.
  fold (updates
          (map (fun o => EvUpdateMembership (fst o) Membership_LEAVE (snd o))
             (fst (leave_outcomes hs
                     (create_requester target (to_string (user requester)))
                     target (db w)
                     (elements (rooms_to_leave_of hs (db w) (fst resolved)
                                  user_rooms (fst hierarchy))))))).
  fold (fetched
          (map (fun o => EvUpdateMembership (fst o) Membership_LEAVE (snd o))
             (fst (leave_outcomes hs
                     (create_requester target (to_string (user requester)))
                     target (db w)
                     (elements (rooms_to_leave_of hs (db w) (fst resolved)
                                  user_rooms (fst hierarchy))))))).
  rewrite updates_of_leaves, fetched_of_leaves, !app_nil_r.
  split; reflexivity.
Qed.

Lemma leave_outcomes_rooms (requester : Requester) (target : UserID)
    (rooms : list string) :
  forall d : DB,
    map fst (fst (leave_outcomes hs requester target d rooms)) = rooms.
Proof.
  induction rooms as [| room_id rest IH]; intros d; [reflexivity |].
  simpl.
  destruct (update_membership hs d requester target room_id Membership_LEAVE)
    as [failure d1].
  specialize (IH d1).
  destruct (leave_outcomes hs requester target d1 rest) as [outcomes d2].
  simpl in *. f_equal. exact IH.
Qed.

Lemma attempted_of_updates (t : list event) :
  attempted t = map (fun u => fst (fst u)) (updates t).
Proof.
  induction t as [| e t IH]; [reflexivity |].
  destruct e; simpl; try exact IH. f_equal. exact IH.
Qed.
End ServletFacts.

Lemma unique_outcome {A B} (l : list (A * B)) (k : A) (v1 v2 : B) :
  NoDup (map fst l) -> In (k, v1) l -> In (k, v2) l -> v1 = v2.
Proof.
  induction l as [| [k' v'] l IH]; simpl; intros Hnd H1 H2; [contradiction |].
  apply NoDup_cons in Hnd as [Hfresh Hnd].
  assert (Hin : forall v, In (k, v) l -> k ∈ map fst l).
  { intros v Hv. apply list_elem_of_In. apply (in_map fst) in Hv. exact Hv. }
  destruct H1 as [E1 | H1]; destruct H2 as [E2 | H2].
  - congruence.
  - injection E1 as -> _. exfalso. exact (Hfresh (Hin _ H2)).
  - injection E2 as -> _. exfalso. exact (Hfresh (Hin _ H1)).
  - exact (IH Hnd H1 H2).
Qed.

Lemma succeeded_In (outcomes : list (string * option exn)) (room_id : string) :
  In room_id (succeeded outcomes) -> In (room_id, None) outcomes.
Proof.
  induction outcomes as [| [r [e |]] rest IH]; simpl; intros Hin.
  - contradiction.
  - right. exact (IH Hin).
  - destruct Hin as [-> | Hin]; [left; reflexivity | right; exact (IH Hin)].
Qed.

Section ServletClaims.
Context {DB : Type}.
Variable hs : Homeserver DB.

(** C8. A request that is answered is answered with status 200, and the
    keys of [failed] are exactly the inaccessible rooms the hierarchy
    handler reported.  A room whose [update_membership] raised is not in
    [left]; when it is not one of the inaccessible rooms it is not a key
    of [failed] either (its message went to the fresh list that
    [failures.get(room_id, [])] made up, which nothing else refers to). *)
Theorem C8_failed_keys_are_the_inaccessible_rooms
    (request space_id user_id : string) (w : world DB)
    (status : Z) (body : reply) :
  ended (on_DELETE hs request space_id user_id w) = Returned (status, body) ->
  status = 200
  /\ exists resolved hierarchy,
       resolve_room_id hs (db w) space_id = inr resolved
       /\ get_room_descendants hs (db w) (fst resolved) = inr hierarchy
       /\ dom (failed body) = list_to_set (snd hierarchy)
       /\ forall room_id e,
            In (room_id, Membership_LEAVE, Some e)
               (updates (events (on_DELETE hs request space_id user_id w))) ->
            ~ In room_id (left body)
            /\ (~ In room_id (snd hierarchy) ->
                failed body !! room_id = None).
Proof.
  intros Hended.
  destruct (on_DELETE hs request space_id user_id w) as [[r w'] t] eqn:Hrun.
  unfold ended in Hended. simpl in Hended. subst r.
  apply on_DELETE_returned in Hrun
    as (requester & resolved & target & user_rooms & hierarchy
        & _ & _ & Hres & _ & _ & _ & Hdesc & Hstatus & Hleft & Hdom & _
        & Hup & _).
  split; [exact Hstatus |].
  exists resolved, hierarchy.
  split; [exact Hres |]. split; [exact Hdesc |]. split; [exact Hdom |].
  intros room_id e Hraised. unfold events in Hraised. simpl in Hraised.
  rewrite Hup in Hraised.
  split.
  - intros Hin. rewrite Hleft in Hin. apply succeeded_In in Hin.
    apply in_map_iff in Hraised as [[r f] [[= -> ->] Hraised]].
    assert (Hsame : Some e = None).
    { eapply unique_outcome; [| exact Hraised | exact Hin].
      rewrite leave_outcomes_rooms. apply NoDup_elements. }
    discriminate.
  - intros Hnot. apply not_elem_of_dom. rewrite Hdom.
    rewrite elem_of_list_to_set, list_elem_of_In. exact Hnot.
Qed.

(** C9. In a request that is answered, the rooms for which a leave is
    attempted, each once, are the space itself together with the rooms
    that are in the space's hierarchy, among the user's invite, join and
    knock memberships, and not public, a room without known join rules
    counting as not public. *)
Theorem C9_rooms_for_which_a_leave_is_attempted
    (request space_id user_id : string) (w : world DB)
    (status : Z) (body : reply) :
  ended (on_DELETE hs request space_id user_id w) = Returned (status, body) ->
  exists resolved user_rooms hierarchy,
    resolve_room_id hs (db w) space_id = inr resolved
    /\ get_rooms_for_local_user_where_membership_is hs (db w) user_id
         [Membership_INVITE; Membership_JOIN; Membership_KNOCK]
       = inr user_rooms
    /\ get_room_descendants hs (db w) (fst resolved) = inr hierarchy
    /\ NoDup (attempted (events (on_DELETE hs request space_id user_id w)))
    /\ (forall room_id action failure,
          In (room_id, action, failure)
             (updates (events (on_DELETE hs request space_id user_id w))) ->
          action = Membership_LEAVE)
    /\ (forall room_id,
          In room_id
             (attempted (events (on_DELETE hs request space_id user_id w)))
          <-> room_id = fst resolved
              \/ ((room_id = fst resolved
                   \/ In room_id (map fst (fst hierarchy)))
                  /\ In room_id user_rooms
                  /\ is_public (join_rules_of hs (db w) room_id) = false))
    /\ In (fst resolved)
          (attempted (events (on_DELETE hs request space_id user_id w))).
Proof.
  intros Hended.
  destruct (on_DELETE hs request space_id user_id w) as [[r w'] t] eqn:Hrun.
  unfold ended in Hended. simpl in Hended. subst r.
  apply on_DELETE_returned in Hrun
    as (requester & resolved & target & user_rooms & hierarchy
        & _ & _ & Hres & _ & _ & Hrooms & Hdesc & _ & _ & _ & _ & Hup & _).
  exists resolved, user_rooms, hierarchy.
  split; [exact Hres |]. split; [exact Hrooms |]. split; [exact Hdesc |].
  unfold events. simpl.
  assert (Hatt : attempted t
                 = elements (rooms_to_leave_of hs (db w) (fst resolved)
                               user_rooms (fst hierarchy))).
  { rewrite attempted_of_updates, Hup, map_map. simpl.
    apply leave_outcomes_rooms. }
  assert (Hmem : forall room_id,
             In room_id (attempted t)
             <-> room_id = fst resolved
                 \/ ((room_id = fst resolved
                      \/ In room_id (map fst (fst hierarchy)))
                     /\ In room_id user_rooms
                     /\ is_public (join_rules_of hs (db w) room_id) = false)).
  { intros room_id. rewrite Hatt, <- list_elem_of_In, elem_of_elements.
    unfold rooms_to_leave_of.
    rewrite elem_of_union, elem_of_filter, elem_of_intersection,
      elem_of_union, !elem_of_singleton, !elem_of_list_to_set,
      !list_elem_of_In.
    unfold non_public. tauto. }
  split; [rewrite Hatt; apply NoDup_elements |].
  split.
  { intros room_id action failure Hin. rewrite Hup in Hin.
    apply in_map_iff in Hin as [o [[= _ <- _] _]]. reflexivity. }
  split; [exact Hmem |].
  apply Hmem. left. reflexivity.
Qed.

End ServletClaims.

(** ** The scenario, run *)

Lemma example_request_answered :
  ended (on_DELETE example_hs "admin-token" "!space" alice example_world)
  = Returned (200, example_reply).
Proof. vm_compute. reflexivity. Qed.

(** C8 on the scenario: leaving [!b] raised, [!b] is not inaccessible, and
    it is in neither [left] nor [failed]. *)
Lemma C8_witness_lost_failure :
  ended (on_DELETE example_hs "admin-token" "!space" alice example_world)
  = Returned (200, example_reply)
  /\ In ("!b", Membership_LEAVE, Some (OtherError "boom"))
        (updates (events (on_DELETE example_hs "admin-token" "!space" alice
                            example_world)))
  /\ dom (failed example_reply) = list_to_set ["!far"]
  /\ ~ In "!b" (left example_reply)
  /\ failed example_reply !! "!b" = None.
Proof.
  assert (Hin : In ("!b", Membership_LEAVE, Some (OtherError "boom"))
                  (updates (events (on_DELETE example_hs "admin-token"
                                      "!space" alice example_world)))).
  { vm_compute. repeat (first [left; reflexivity | right]). }
  destruct (C8_failed_keys_are_the_inaccessible_rooms example_hs
              "admin-token" "!space" alice example_world 200 example_reply
              example_request_answered)
    as (_ & resolved & hierarchy & _ & Hdesc & Hdom & Hlost).
  simpl in Hdesc. injection Hdesc as <-.
  destruct (Hlost "!b" (OtherError "boom") Hin) as [Hleft Hfailed].
  split; [exact example_request_answered |].
  split; [exact Hin |].
  split; [exact Hdom |].
  split; [exact Hleft |].
  apply Hfailed. simpl. intros [Heq | []]. discriminate.
Defined.

(** C9 on the scenario: leaves are attempted for the space, for [!b]
    (invite only), [!c] (no join rules known) and [!far], not for the
    public [!a]. *)
Lemma C9_witness_public_room_kept :
  attempted (events (on_DELETE example_hs "admin-token" "!space" alice
                       example_world))
  = ["!space"; "!c"; "!far"; "!b"]
  /\ In "!space"
        (attempted (events (on_DELETE example_hs "admin-token" "!space" alice
                              example_world)))
  /\ In "!c"
        (attempted (events (on_DELETE example_hs "admin-token" "!space" alice
                              example_world)))
  /\ ~ In "!a"
        (attempted (events (on_DELETE example_hs "admin-token" "!space" alice
                              example_world))).
Proof.
  destruct (C9_rooms_for_which_a_leave_is_attempted example_hs
              "admin-token" "!space" alice example_world 200 example_reply
              example_request_answered)
    as (resolved & user_rooms & hierarchy & Hres & _ & _ & _ & _
        & Hmem & Hspace).
  simpl in Hres. injection Hres as <-.
  split; [vm_compute; reflexivity |].
  split; [exact Hspace |].
  split.
  - vm_compute. repeat (first [left; reflexivity | right]).
  - intros Hin.
    destruct (proj1 (Hmem "!a") Hin) as [Heq | (_ & _ & Hpub)];
      [discriminate |].
    vm_compute in Hpub. discriminate.
Defined.



End RoomHierarchyProofs.

(** * More on the replication loop: proofs *)

Module AppserviceExtraProofs.

Import Mon Appservice AppserviceExtra AppserviceProofs.
Local Open Scope py_scope.

Lemma dispatch_args_position (result : json) :
  dispatch_args result
  = match dispatched_position result with Some p => [p] | None => [] end.
Proof.
  unfold dispatch_args, dispatched_position.
  destruct result as [| b | n | s | items | fields]; try reflexivity.
  simpl. destruct (fields !! "events") as [entry |]; [| reflexivity].
  simpl.
  destruct entry as [| b | n | s | items | entry]; simpl.
  1-5: try match goal with |- (if ?c then _ else _) = _ => destruct c end;
    reflexivity.
  destruct (decide (entry = ∅)) as [-> | Hne].
  - rewrite bool_decide_eq_true_2 by reflexivity. simpl.
    rewrite lookup_empty. reflexivity.
  - rewrite bool_decide_eq_false_2 by exact Hne. simpl.
    destruct (entry !! "position"); reflexivity.
Qed.

Lemma successes_EvNotify (l : list json) : successes (map EvNotify l) = [].
Proof. induction l as [| p l IH]; [reflexivity | exact IH]. Qed.

Lemma applied_EvNotify (l : list json) : applied (map EvNotify l) = [].
Proof. induction l as [| p l IH]; [reflexivity | exact IH]. Qed.

Section PerTurn.
Context {S : Type} `{ReplicaStore S}.
Variable env : Env.
Variable url : string.

(** X1. A turn whose request and [process_replication] both went through
    calls [notify_interested_services] exactly when the response is an
    object whose [events] value is an object with a [position] key, and
    then once, with that position.  In every other case (no [events], an
    empty or falsy value, a value without [position], a value that cannot
    be indexed) nothing is dispatched; either way the turn ends normally,
    logs nothing and does not sleep: what goes wrong inside the nested
    [replicate(result)] stays in its deferred. *)
Theorem dispatch_iff_events_object_with_position
    (w : world S) dur result st :
  get_json env (polls w) url (timeout_args (stream_positions (store w)))
  = (dur, inr result) ->
  process_replication (store w) result = (None, st) ->
  notifications (events (iteration env url w))
  = match dispatched_position result with Some p => [p] | None => [] end
  /\ ended (iteration env url w) = Returned tt
  /\ backoffs (events (iteration env url w)) = []
  /\ logged (events (iteration env url w)) = [].
Proof.
  intros Hget Happly.
  rewrite (iteration_succeeded env url w dur result st Hget Happly).
  unfold ended, events. simpl.
  fold (backoffs (map EvNotify (dispatch_args result))).
  fold (logged (map EvNotify (dispatch_args result))).
  rewrite notifications_EvNotify, backoffs_EvNotify, logged_EvNotify.
  rewrite dispatch_args_position. auto.
Qed.

(** How one turn counts. *)
Lemma turn_accounting (w : world S) :
  (backoffs (events (iteration env url w)) = []
   /\ logged (events (iteration env url w)) = []
   /\ length (successes (events (iteration env url w))) = 1%nat
   /\ (now w <= now (final (iteration env url w)))%nat)
  \/ (backoffs (events (iteration env url w)) = [30%nat]
      /\ logged (events (iteration env url w)) = [(log_msg, url)]
      /\ successes (events (iteration env url w)) = []
      /\ (now w + 30 <= now (final (iteration env url w)))%nat).
Proof.
  turn_cases env url w.
  - right. unfold final. simpl. repeat split. lia.
  - right. unfold final. simpl. repeat split. lia.
  - left. unfold events, final. simpl.
    fold (backoffs (map EvNotify (dispatch_args result))).
    fold (logged (map EvNotify (dispatch_args result))).
    fold (successes (map EvNotify (dispatch_args result))).
    rewrite backoffs_EvNotify, logged_EvNotify, successes_EvNotify.
    repeat split. lia.
Qed.

Lemma turn_applies (w : world S) :
  store (final (iteration env url w))
  = apply_all (store w) (applied (events (iteration env url w))).
Proof.
  turn_cases env url w; try reflexivity.
  - unfold final, events, apply_all. simpl. rewrite Happly. reflexivity.
  - unfold final, events, apply_all. simpl.
    fold (applied (map EvNotify (dispatch_args result))).
    rewrite applied_EvNotify. simpl. rewrite Happly. reflexivity.
Qed.

Lemma final_S (n : nat) (w : world S) :
  final (replicate env url (Datatypes.S n) w)
  = final (replicate env url n (final (iteration env url w))).
Proof. rewrite replicate_step. reflexivity. Qed.

Lemma projection_S {B} (f : event -> option B) (n : nat) (w : world S) :
  omap f (events (replicate env url (Datatypes.S n) w))
  = omap f (events (iteration env url w))
    ++ omap f (events (replicate env url n (final (iteration env url w)))).
Proof. rewrite replicate_step. unfold events at 1. simpl. apply omap_app. Qed.

Lemma backoffs_S (n : nat) (w : world S) :
  backoffs (events (replicate env url (Datatypes.S n) w))
  = backoffs (events (iteration env url w))
    ++ backoffs (events (replicate env url n (final (iteration env url w)))).
Proof. apply projection_S. Qed.

Lemma logged_S (n : nat) (w : world S) :
  logged (events (replicate env url (Datatypes.S n) w))
  = logged (events (iteration env url w))
    ++ logged (events (replicate env url n (final (iteration env url w)))).
Proof. apply projection_S. Qed.

Lemma successes_S (n : nat) (w : world S) :
  successes (events (replicate env url (Datatypes.S n) w))
  = successes (events (iteration env url w))
    ++ successes (events (replicate env url n (final (iteration env url w)))).
Proof. apply projection_S. Qed.

Lemma applied_S (n : nat) (w : world S) :
  applied (events (replicate env url (Datatypes.S n) w))
  = applied (events (iteration env url w))
    ++ applied (events (replicate env url n (final (iteration env url w)))).
Proof. apply projection_S. Qed.

(** X2. Over any number of turns of the loop, from any state: every
    backoff is [sleep(30)]; there is exactly one logged exception, naming
    the replication url, per backoff; every turn either backs off or has
    [process_replication] return, never both, so the two counts add up to
    the number of turns; and the clock has advanced by at least thirty
    seconds per backoff. *)
Theorem every_failed_turn_logs_once_and_sleeps_30 (n : nat) (w : world S) :
  backoffs (events (replicate env url n w))
  = repeat 30%nat (length (backoffs (events (replicate env url n w))))
  /\ logged (events (replicate env url n w))
     = repeat (log_msg, url)
         (length (backoffs (events (replicate env url n w))))
  /\ (length (backoffs (events (replicate env url n w)))
      + length (successes (events (replicate env url n w))))%nat = n
  /\ (now w + 30 * length (backoffs (events (replicate env url n w)))
      <= now (final (replicate env url n w)))%nat.
Proof.
  revert w. induction n as [| n IH]; intros w.
  - repeat split. unfold final. simpl. lia.
  - rewrite backoffs_S, logged_S, successes_S, final_S.
    destruct (IH (final (iteration env url w))) as (Hb & Hl & Hn & Ht).
    destruct (turn_accounting w)
      as [(Hb1 & Hl1 & Hs1 & Hnow) | (Hb1 & Hl1 & Hs1 & Hnow)];
      rewrite Hb1, Hl1.
    + simpl. rewrite length_app, Hs1.
      split; [exact Hb |]. split; [exact Hl |]. split; lia.
    + rewrite Hs1. simpl.
      split; [f_equal; exact Hb |]. split; [f_equal; exact Hl |].
      split; lia.
Qed.

(** X3. The loop changes the store only by calling
    [process_replication]: after any number of turns the store is the
    initial one with the batches handed to [process_replication] applied
    in order (including what a call that raised left behind), and the
    primary has been polled once per turn. *)
Theorem store_changes_only_through_process_replication
    (n : nat) (w : world S) :
  store (final (replicate env url n w))
  = apply_all (store w) (applied (events (replicate env url n w)))
  /\ polls (final (replicate env url n w)) = (polls w + n)%nat.
Proof.
  revert w. induction n as [| n IH]; intros w.
  - split; [reflexivity |]. unfold final. simpl. lia.
  - rewrite applied_S, final_S.
    destruct (IH (final (iteration env url w))) as [Hst Hp].
    rewrite Hst, Hp, iteration_polls.
    split; [| lia].
    unfold apply_all. rewrite fold_left_app.
    fold (apply_all (store w) (applied (events (iteration env url w)))).
    rewrite <- turn_applies. reflexivity.
Qed.
End PerTurn.

(** X1 where the [events] entry has no position: nothing is dispatched,
    nothing is logged, the loop does not back off. *)
Lemma dispatch_witness_no_position :
  apply_batch false {[ "directory" := 0 ]}
    (JObj {[ "events" := JObj {[ "rows" := JArr [] ]} ]})
  = (None, {[ "directory" := 0 ]})
  /\ notifications
       (events (iteration (H := lenient_store) env_no_position primary_url
                  directory_worker)) = []
  /\ backoffs
       (events (iteration (H := lenient_store) env_no_position primary_url
                  directory_worker)) = [].
Proof.
  assert (Happly : apply_batch false {[ "directory" := 0 ]}
                     (JObj {[ "events" := JObj {[ "rows" := JArr [] ]} ]})
                   = (None, {[ "directory" := 0 ]}))
    by (vm_compute; reflexivity).
  destruct (dispatch_iff_events_object_with_position (H := lenient_store)
              env_no_position primary_url directory_worker 2%nat _ _
              eq_refl Happly) as (Hnot & _ & Hback & _).
  split; [exact Happly |]. split; [exact Hnot | exact Hback].
Defined.

End AppserviceExtraProofs.

(** * More on the room hierarchy servlet: proofs *)

Module RoomHierarchyExtraProofs.

Import Mon RoomHierarchy RoomHierarchyExtra RoomHierarchyProofs.
Local Open Scope py_scope.

(** ** The list objects behind [failures] *)

Lemma leave_heap_length failures room_id failure (h : list (list string)) :
  (length h <= length (leave_heap failures room_id failure h))%nat.
Proof.
  destruct failure as [e |]; simpl; [| lia].
  rewrite length_alter, length_app. simpl. lia.
Qed.

Lemma leave_heap_lookup failures room_id failure (h : list (list string))
    (r : string) (lr : nat) :
  failures_ok failures h ->
  failures !! r = Some lr ->
  leave_heap failures room_id failure h !! lr
  = (fun items => items ++ notes [(room_id, failure)] r) <$> h !! lr.
Proof.
  intros [Hrange Hinj] Hr.
  pose proof (Hrange _ _ Hr) as Hlt.
  destruct failure as [e |]; unfold notes; simpl.
  - destruct (decide (room_id = r)) as [-> | Hne].
    + rewrite Hr. simpl.
      rewrite list_lookup_alter_eq, lookup_app_l by exact Hlt. reflexivity.
    + assert (Hloc : default (length h) (failures !! room_id) <> lr).
      { destruct (failures !! room_id) as [l' |] eqn:Hl'; simpl; [| lia].
        intros ->. apply Hne. exact (Hinj _ _ _ Hl' Hr). }
      rewrite list_lookup_alter_ne by exact Hloc.
      rewrite lookup_app_l by exact Hlt.
      destruct (h !! lr); simpl; [rewrite app_nil_r |]; reflexivity.
  - destruct (h !! lr); simpl; [rewrite app_nil_r |]; reflexivity.
Qed.

Lemma failures_ok_leave failures room_id failure (h : list (list string)) :
  failures_ok failures h ->
  failures_ok failures (leave_heap failures room_id failure h).
Proof.
  intros [Hrange Hinj]. split; [| exact Hinj].
  intros r l Hr. pose proof (Hrange _ _ Hr).
  pose proof (leave_heap_length failures room_id failure h). lia.
Qed.

Lemma leave_heaps_lookup failures (outcomes : list (string * option exn)) :
  forall (h : list (list string)) (r : string) (l : nat),
    failures_ok failures h ->
    failures !! r = Some l ->
    leave_heaps failures outcomes h !! l
    = (fun items => items ++ notes outcomes r) <$> h !! l.
Proof.
  induction outcomes as [| [room_id failure] rest IH]; intros h r l Hok Hr.
  - simpl. destruct (h !! l); simpl; [rewrite app_nil_r |]; reflexivity.
  - simpl. fold (leave_heaps failures rest (leave_heap failures room_id failure h)).
    rewrite (IH _ r l (failures_ok_leave _ _ _ _ Hok) Hr).
    rewrite (leave_heap_lookup failures room_id failure h r l Hok Hr).
    simpl. destruct (h !! l) as [items |]; simpl; [| reflexivity].
    f_equal. rewrite <- app_assoc. f_equal.
    unfold notes. simpl.
    destruct failure as [e |]; simpl;
      [destruct (decide (room_id = r)) |]; reflexivity.
Qed.



Lemma succeeded_subset (outcomes : list (string * option exn)) (r : string) :
  In r (succeeded outcomes) -> In r (map fst outcomes).
Proof.
  intros Hin. apply succeeded_In in Hin.
  apply (in_map fst) in Hin. exact Hin.
Qed.

Lemma succeeded_NoDup (outcomes : list (string * option exn)) :
  NoDup (map fst outcomes) -> NoDup (succeeded outcomes).
Proof.
  induction outcomes as [| [room_id failure] rest IH]; simpl; intros Hnd;
    [constructor |].
  apply NoDup_cons in Hnd as [Hfresh Hnd].
  unfold succeeded. simpl. destruct failure as [e |]; simpl.
  - exact (IH Hnd).
  - apply NoDup_cons. split; [| exact (IH Hnd)].
    intros Hin. apply Hfresh. apply list_elem_of_In.
    apply succeeded_subset. apply list_elem_of_In. exact Hin.
Qed.

Lemma In_succeeded (outcomes : list (string * option exn)) (r : string) :
  In (r, None) outcomes -> In r (succeeded outcomes).
Proof.
  induction outcomes as [| [room_id failure] rest IH]; simpl; [tauto |].
  intros [[= -> ->] | Hin]; unfold succeeded; simpl.
  - left. reflexivity.
  - destruct failure; simpl; [| right]; exact (IH Hin).
Qed.

Section LoopsExactly.
Context {DB : Type}.
Variable hs : Homeserver DB.

Lemma failures_loop_heap (rooms : list string) :
  forall (acc : gmap string nat) (w : world DB),
    failures_ok acc (heap w) ->
    (forall r l, acc !! r = Some l -> heap w !! l = Some [explore_msg]) ->
    exists acc' heap',
      foldM new_failure acc rooms w = (Returned acc', World (db w) heap', [])
      /\ dom acc' = dom acc ∪ list_to_set rooms
      /\ failures_ok acc' heap'
      /\ (forall r l, acc' !! r = Some l -> heap' !! l = Some [explore_msg]).
Proof.
  induction rooms as [| room_id rest IH]; intros acc w Hok Hmsg.
  - exists acc, (heap w). destruct w as [d h]. split; [reflexivity |].
    split; [| split; assumption].
    simpl. apply set_eq. intros x. rewrite elem_of_union, elem_of_empty. tauto.
  - destruct Hok as [Hrange Hinj].
    destruct (IH (<[room_id := length (heap w)]> acc)
                (World (db w) (heap w ++ [[explore_msg]])))
      as (acc' & heap' & Hrun & Hdom & Hok' & Hmsg').
    + simpl. split.
      * intros r l. rewrite length_app. simpl.
        destruct (decide (room_id = r)) as [-> | Hne].
        -- rewrite lookup_insert_eq. intros [= <-]. lia.
        -- rewrite lookup_insert_ne by exact Hne. intros Hr.
           pose proof (Hrange _ _ Hr). lia.
      * intros r1 r2 l.
        destruct (decide (room_id = r1)) as [<- | Hne1];
          destruct (decide (room_id = r2)) as [<- | Hne2];
          rewrite ?lookup_insert_eq, ?lookup_insert_ne by assumption.
        -- reflexivity.
        -- intros [= <-] Hr2. pose proof (Hrange _ _ Hr2). lia.
        -- intros Hr1 [= <-]. pose proof (Hrange _ _ Hr1). lia.
        -- apply Hinj.
    + simpl. intros r l.
      destruct (decide (room_id = r)) as [-> | Hne].
      * rewrite lookup_insert_eq. intros [= <-].
        rewrite lookup_app_r by lia. rewrite Nat.sub_diag. reflexivity.
      * rewrite lookup_insert_ne by exact Hne. intros Hr.
        rewrite lookup_app_l by exact (Hrange _ _ Hr). exact (Hmsg _ _ Hr).
    + exists acc', heap'. split; [| split; [| split; assumption]].
      * simpl. unfold bind at 1. unfold new_failure at 1.
        unfold new_list, bind, get, put, ret. simpl.
        unfold explore_msg in Hrun. simpl in Hrun. rewrite Hrun. reflexivity.
      * rewrite Hdom, dom_insert_L. simpl.
        apply set_eq. intros x. rewrite !elem_of_union. tauto.
Qed.

Lemma leave_room_exact (requester : Requester) (target : UserID)
    (failures : gmap string nat) (left_rooms : list string)
    (room_id : string) (w : world DB) :
  leave_room hs requester target failures left_rooms room_id w
  = (Returned
       (match fst (update_membership hs (db w) requester target room_id
                     Membership_LEAVE) with
        | None => left_rooms ++ [room_id]
        | Some _ => left_rooms
        end),
     World (snd (update_membership hs (db w) requester target room_id
                   Membership_LEAVE))
       (leave_heap failures room_id
          (fst (update_membership hs (db w) requester target room_id
                  Membership_LEAVE)) (heap w)),
     [EvUpdateMembership room_id Membership_LEAVE
        (fst (update_membership hs (db w) requester target room_id
                Membership_LEAVE))]).
Proof.
  unfold leave_room, try_except, call_update_membership, failures_get,
    new_list, list_append, bind, get, put, emit, ret, raise, leave_heap.
  simpl.
  destruct (update_membership hs (db w) requester target room_id
              Membership_LEAVE) as [[e |] d1]; reflexivity.
Qed.

Lemma leave_loop_exact (requester : Requester) (target : UserID)
    (failures : gmap string nat) (rooms : list string) :
  forall (left_rooms : list string) (w : world DB),
    foldM (leave_room hs requester target failures) left_rooms rooms w
    = (Returned
         (left_rooms
          ++ succeeded (fst (leave_outcomes hs requester target (db w) rooms))),
       World (snd (leave_outcomes hs requester target (db w) rooms))
         (leave_heaps failures
            (fst (leave_outcomes hs requester target (db w) rooms)) (heap w)),
       map (fun o => EvUpdateMembership (fst o) Membership_LEAVE (snd o))
           (fst (leave_outcomes hs requester target (db w) rooms))).
Proof.
  induction rooms as [| room_id rest IH]; intros left_rooms w.
  - destruct w as [d h]. simpl. unfold ret. rewrite app_nil_r. reflexivity.
  - simpl. unfold bind at 1. rewrite leave_room_exact.
    destruct (update_membership hs (db w) requester target room_id
                Membership_LEAVE) as [failure d1]. simpl.
    rewrite IH. simpl.
    destruct (leave_outcomes hs requester target d1 rest) as [outcomes d2].
    simpl.
    destruct failure as [e |]; unfold succeeded; simpl;
      [| rewrite <- app_assoc]; reflexivity.
Qed.
End LoopsExactly.


Section Replies.
Context {DB : Type}.
Variable hs : Homeserver DB.

(** The reply of a request that is answered, in full. *)
Lemma on_DELETE_reply (request space_id user_id : string)
    (w w' : world DB) (status : Z) (body : reply) (t : list event) :
  on_DELETE hs request space_id user_id w = (Returned (status, body), w', t) ->
  exists requester resolved target user_rooms hierarchy outcomes,
    get_user_by_req hs (db w) request = inr requester
    /\ resolve_room_id hs (db w) space_id = inr resolved
    /\ UserID_from_string hs user_id = inr target
    /\ get_rooms_for_local_user_where_membership_is hs (db w) user_id
         [Membership_INVITE; Membership_JOIN; Membership_KNOCK]
       = inr user_rooms
    /\ get_room_descendants hs (db w) (fst resolved) = inr hierarchy
    /\ outcomes
       = fst (leave_outcomes hs
                (create_requester target (to_string (user requester)))
                target (db w)
                (elements (rooms_to_leave_of hs (db w) (fst resolved)
                             user_rooms (fst hierarchy))))
    /\ left body = succeeded outcomes
    /\ updates t = map (fun o => (fst o, Membership_LEAVE, snd o)) outcomes
    /\ forall room_id,
         failed body !! room_id
         = if decide (room_id ∈ snd hierarchy)
           then Some (explore_msg :: notes outcomes room_id)
           else None.
Proof.
  intros Hrun.
  pose proof (on_DELETE_returned hs _ _ _ _ _ _ _ _ Hrun)
    as (requester & resolved & target & user_rooms & hierarchy
        & Hreq & Hadm & Hres & Hparse & Hmine & Hrooms & Hdesc & _ & Hleft
        & _ & _ & Hup & _).
  exists requester, resolved, target, user_rooms, hierarchy.
  eexists. split; [exact Hreq |]. split; [exact Hres |].
  split; [exact Hparse |]. split; [exact Hrooms |]. split; [exact Hdesc |].
  split; [reflexivity |]. split; [exact Hleft |]. split; [exact Hup |].
  clear Hleft Hup.
  unfold on_DELETE in Hrun.
  apply bind_returned in Hrun as (requester' & w1 & t1 & t1' & Hreq' & Hrun & ->).
  apply read_returned in Hreq' as (Hreq' & -> & ->).
  rewrite Hreq in Hreq'. injection Hreq' as <-.
  apply bind_returned in Hrun as ([] & w1 & t2 & t2' & Hadm' & Hrun & ->).
  apply admin_returned in Hadm' as (_ & -> & ->).
  apply bind_returned in Hrun as (resolved' & w1 & t3 & t3' & Hres' & Hrun & ->).
  apply read_returned in Hres' as (Hres' & -> & ->).
  rewrite Hres in Hres'. injection Hres' as <-.
  cbv beta zeta in Hrun.
  apply bind_returned in Hrun as (target' & w1 & t4 & t4' & Htgt & Hrun & ->).
  unfold lift in Htgt. rewrite Hparse in Htgt. simpl in Htgt.
  injection Htgt as <- <- <-.
  rewrite Hmine in Hrun. simpl in Hrun.
  apply bind_returned in Hrun as (user_rooms' & w1 & t5 & t5' & Hrooms' & Hrun & ->).
  apply read_returned in Hrooms' as (Hrooms' & -> & ->).
  rewrite Hrooms in Hrooms'. injection Hrooms' as <-.
  apply bind_returned in Hrun as (hierarchy' & w1 & t6 & t6' & Hdesc' & Hrun & ->).
  apply read_returned in Hdesc' as (Hdesc' & -> & ->).
  rewrite Hdesc in Hdesc'. injection Hdesc' as <-.
  apply bind_returned in Hrun as (to_leave & w1 & t7 & t7' & Hcheck & Hrun & ->).
  apply check_loop_returned in Hcheck as (-> & -> & _ & _).
  rewrite list_to_set_elements_L in Hrun.
  fold (rooms_to_leave_of hs (db w) (fst resolved) user_rooms (fst hierarchy))
    in Hrun.
  apply bind_returned in Hrun as (failures & w1 & t8 & t8' & Hfail & Hrun & ->).
  destruct (failures_loop_heap (snd hierarchy) ∅ w)
    as (failures' & heap1 & Hfail' & Hdom & Hok & Hmsg).
  { split; intros *; rewrite lookup_empty; discriminate. }
  { intros *. rewrite lookup_empty. discriminate. }
  rewrite Hfail' in Hfail. injection Hfail as <- <- <-.
  apply bind_returned in Hrun as (left_rooms & w2 & t9 & t9' & Hleave & Hrun & ->).
  rewrite leave_loop_exact in Hleave. injection Hleave as <- <- <-.
  unfold bind, get, ret in Hrun. simpl in Hrun.
  injection Hrun as <- <- <- <-.
  intros room_id. simpl. rewrite lookup_fmap.
  destruct (decide (room_id ∈ snd hierarchy)) as [Hin | Hnot].
  - assert (Hkey : is_Some (failures' !! room_id)).
    { apply elem_of_dom. rewrite Hdom, elem_of_union, elem_of_list_to_set.
      right. exact Hin. }
    destruct Hkey as [l Hl]. rewrite Hl. simpl.
    rewrite (leave_heaps_lookup failures' _ heap1 room_id l Hok Hl).
    rewrite (Hmsg _ _ Hl). reflexivity.
  - assert (Hkey : failures' !! room_id = None).
    { apply not_elem_of_dom. rewrite Hdom, elem_of_union, elem_of_list_to_set.
      rewrite dom_empty_L, elem_of_empty. tauto. }
    rewrite Hkey. reflexivity.
Qed.


(** X5. The [left] list of a reply: the rooms whose leave went through,
    each once; every room a leave was attempted for is either in [left] or
    has a failed attempt in the trace, never both. *)
Theorem left_lists_exactly_the_rooms_whose_leave_succeeded
    (request space_id user_id : string) (w : world DB)
    (status : Z) (body : reply) :
  ended (on_DELETE hs request space_id user_id w) = Returned (status, body) ->
  NoDup (left body)
  /\ (forall room_id,
        In room_id (left body)
        <-> In (room_id, Membership_LEAVE, None)
               (updates (events (on_DELETE hs request space_id user_id w))))
  /\ (forall room_id,
        In room_id
           (attempted (events (on_DELETE hs request space_id user_id w))) ->
        In room_id (left body)
        \/ exists e,
             In (room_id, Membership_LEAVE, Some e)
                (updates (events (on_DELETE hs request space_id user_id w))))
  /\ (forall room_id e,
        In room_id (left body) ->
        ~ In (room_id, Membership_LEAVE, Some e)
             (updates (events (on_DELETE hs request space_id user_id w)))).
Proof.
  intros Hended.
  destruct (on_DELETE hs request space_id user_id w) as [[r w'] t] eqn:Hrun.
  unfold ended in Hended. simpl in Hended. subst r.
  apply on_DELETE_reply in Hrun
    as (requester & resolved & target & user_rooms & hierarchy & outcomes
        & _ & _ & _ & _ & _ & Hout & Hleft & Hup & _).
  unfold events. simpl.
  assert (Hnd : NoDup (map fst outcomes)).
  { rewrite Hout, leave_outcomes_rooms. apply NoDup_elements. }
  assert (Hmem : forall room_id f,
             In (room_id, Membership_LEAVE, f) (updates t)
             <-> In (room_id, f) outcomes).
  { intros room_id f. rewrite Hup, in_map_iff. split.
    - intros [[r f'] [[= -> ->] Hin]]. exact Hin.
    - intros Hin. exists (room_id, f). split; [reflexivity | exact Hin]. }
  split; [rewrite Hleft; apply succeeded_NoDup; exact Hnd |].
  split; [| split].
  - intros room_id. rewrite Hleft, Hmem. split.
    + apply succeeded_In.
    + apply In_succeeded.
  - intros room_id Hatt. rewrite attempted_of_updates, Hup, map_map in Hatt.
    simpl in Hatt. apply in_map_iff in Hatt as [[r [e |]] [<- Hin]]; simpl.
    + right. exists e. apply Hmem. exact Hin.
    + left. rewrite Hleft. apply In_succeeded. exact Hin.
  - intros room_id e Hin Hfail. rewrite Hleft in Hin.
    apply succeeded_In in Hin. apply Hmem in Hfail.
    assert (Hsame : Some e = None).
    { eapply unique_outcome; [| exact Hfail | exact Hin]. exact Hnd. }
    discriminate.
Qed.
End Replies.

(** ** Requests that end in an error *)

Lemma bind_raised {W E A B} (m : Mon.M W E A) (k : A -> Mon.M W E B)
    (w w2 : W) (e : exn) (t : list E) :
  bind m k w = (Raised e, w2, t) ->
  m w = (Raised e, w2, t)
  \/ exists a w1 t1 t2,
       m w = (Returned a, w1, t1)
       /\ k a w1 = (Raised e, w2, t2)
       /\ t = t1 ++ t2.
Proof.
  unfold bind.
  destruct (m w) as [[[a | e' |] w1] t1]; try discriminate.
  - destruct (k a w1) as [[r w2'] t2] eqn:Hk.
    intros [= -> -> <-]. right. exists a, w1, t1, t2. auto.
  - intros [= -> -> ->]. left. reflexivity.
Qed.

Section Errors.
Context {DB : Type}.
Variable hs : Homeserver DB.

Lemma read_raised {A} (ev : event) (f : DB -> exn + A)
    (w w1 : world DB) (e : exn) (t : list event) :
  read ev f w = (Raised e, w1, t) -> f (db w) = inl e /\ w1 = w /\ t = [ev].
Proof.
  unfold read, bind, emit, get, lift, of_sum. simpl.
  destruct (f (db w)) as [e' | a]; [| discriminate].
  intros [= -> <- <-]. auto.
Qed.

Lemma read_join_rules_raised (room_id : string) (w w1 : world DB)
    (e : exn) (t : list event) :
  read_join_rules hs room_id w = (Raised e, w1, t) ->
  w1 = w /\ updates t = [] /\ fetched t = [].
Proof.
  unfold read_join_rules. intros Hrun.
  apply bind_raised in Hrun
    as [Hids | (ids & w' & t1 & t2 & Hids & Hrest & ->)].
  - apply read_raised in Hids as (_ & -> & ->). auto.
  - apply read_returned in Hids as (_ & -> & ->).
    destruct (ids !! (EventTypes_JoinRules, EmptyString)) as [ev |];
      [| discriminate].
    apply bind_raised in Hrest
      as [Hev | (event & w' & t1 & t3 & Hev & Hret & ->)].
    + apply read_raised in Hev as (_ & -> & ->). auto.
    + discriminate.
Qed.

Lemma check_room_raised (acc : gset string) (room_id : string)
    (w w1 : world DB) (e : exn) (t : list event) :
  check_room hs acc room_id w = (Raised e, w1, t) ->
  w1 = w /\ updates t = [] /\ fetched t = [].
Proof.
  unfold check_room. intros Hrun.
  apply bind_raised in Hrun
    as [Hjr | (jr & w' & t1 & t2 & Hjr & Hret & ->)].
  - exact (read_join_rules_raised _ _ _ _ _ Hjr).
  - destruct (negb (is_public jr)); discriminate.
Qed.

Lemma check_loop_raised (rooms : list string) :
  forall (acc : gset string) (w w1 : world DB) (e : exn) (t : list event),
    foldM (check_room hs) acc rooms w = (Raised e, w1, t) ->
    w1 = w /\ updates t = [] /\ fetched t = [].
Proof.
  induction rooms as [| room_id rest IH]; intros acc w w1 e t Hrun;
    [discriminate |].
  simpl in Hrun.
  apply bind_raised in Hrun
    as [Hstep | (acc1 & w' & t1 & t2 & Hstep & Hrest & ->)].
  - exact (check_room_raised _ _ _ _ _ _ Hstep).
  - apply check_room_returned in Hstep as (_ & -> & Hup1 & Hfe1).
    apply IH in Hrest as (-> & Hup2 & Hfe2).
    unfold updates, fetched in *. rewrite !omap_app, Hup1, Hup2, Hfe1, Hfe2.
    auto.
Qed.

(** X6. A request that ends in an error has changed nothing: the
    homeserver's state is as it was and [update_membership] was never
    called.  (Failures of [update_membership] itself never end the
    request.) *)
Theorem an_error_reply_means_no_membership_was_changed
    (request space_id user_id : string) (w : world DB) (e : exn) :
  ended (on_DELETE hs request space_id user_id w) = Raised e ->
  final (on_DELETE hs request space_id user_id w) = w
  /\ updates (events (on_DELETE hs request space_id user_id w)) = []
  /\ attempted (events (on_DELETE hs request space_id user_id w)) = [].
Proof.
  intros Hended.
  destruct (on_DELETE hs request space_id user_id w) as [[r w'] t] eqn:Hrun.
  unfold ended in Hended. simpl in Hended. subst r.
  unfold final, events. simpl.
  cut (w' = w /\ updates t = []).
  { intros [-> Hup]. rewrite attempted_of_updates, Hup. auto. }
  unfold on_DELETE in Hrun.
  apply bind_raised in Hrun
    as [Hreq | (requester & w1 & t1 & t1' & Hreq & Hrun & ->)].
  { apply read_raised in Hreq as (_ & -> & ->). auto. }
  apply read_returned in Hreq as (_ & -> & ->).
  apply bind_raised in Hrun
    as [Hadm | ([] & w1 & t2 & t2' & Hadm & Hrun & ->)].
  { revert Hadm.
    unfold call_assert_user_is_admin, bind, emit, get, ret, raise. simpl.
    destruct (assert_user_is_admin hs (db w) (user requester));
      intros [= <- <- <-]; auto. }
  apply admin_returned in Hadm as (_ & -> & ->).
  apply bind_raised in Hrun
    as [Hres | (resolved & w1 & t3 & t3' & Hres & Hrun & ->)].
  { apply read_raised in Hres as (_ & -> & ->). auto. }
  apply read_returned in Hres as (_ & -> & ->).
  cbv beta zeta in Hrun.
  apply bind_raised in Hrun
    as [Htgt | (target & w1 & t4 & t4' & Htgt & Hrun & ->)].
  { unfold lift in Htgt. injection Htgt as _ <- <-. auto. }
  unfold lift in Htgt. injection Htgt as _ <- <-.
  destruct (is_mine hs target); simpl in Hrun;
    [| unfold raise in Hrun; injection Hrun as _ <- <-; auto].
  apply bind_raised in Hrun
    as [Hrooms | (user_rooms & w1 & t5 & t5' & Hrooms & Hrun & ->)].
  { apply read_raised in Hrooms as (_ & -> & ->). auto. }
  apply read_returned in Hrooms as (_ & -> & ->).
  apply bind_raised in Hrun
    as [Hdesc | (hierarchy & w1 & t6 & t6' & Hdesc & Hrun & ->)].
  { apply read_raised in Hdesc as (_ & -> & ->). auto. }
  apply read_returned in Hdesc as (_ & -> & ->).
  apply bind_raised in Hrun
    as [Hcheck | (to_leave & w1 & t7 & t7' & Hcheck & Hrun & ->)].
  { apply check_loop_raised in Hcheck as (-> & Hup & _).
    unfold updates in *. rewrite !omap_app, Hup. auto. }
  exfalso.
  apply check_loop_returned in Hcheck as (_ & -> & _ & _).
  apply bind_raised in Hrun
    as [Hfail | (failures & w1 & t8 & t8' & Hfail & Hrun & ->)].
  { destruct (failures_loop_spec (snd hierarchy) ∅ w)
      as (failures' & heap1 & Hfail' & _).
    rewrite Hfail' in Hfail. discriminate. }
  apply bind_raised in Hrun
    as [Hleave | (left_rooms & w2 & t9 & t9' & Hleave & Hrun & ->)].
  { rewrite leave_loop_exact in Hleave. discriminate. }
  unfold bind, get, ret in Hrun. discriminate.
Qed.
End Errors.

(** ** Requests that are answered *)

Lemma ended_bind {W E A B} (m : Mon.M W E A) (k : A -> Mon.M W E B)
    (w w1 : W) (a : A) (t1 : list E) :
  m w = (Returned a, w1, t1) -> ended (bind m k w) = ended (k a w1).
Proof.
  intros Hm. unfold ended, bind. rewrite Hm.
  destruct (k a w1) as [[r w2] t2]. reflexivity.
Qed.

Section Answers.
Context {DB : Type}.
Variable hs : Homeserver DB.

Lemma read_ok {A} (ev : event) (f : DB -> exn + A) (w : world DB) (a : A) :
  f (db w) = inr a -> read ev f w = (Returned a, w, [ev]).
Proof.
  intros Hf. unfold read, bind, emit, get, lift, of_sum. simpl.
  rewrite Hf. reflexivity.
Qed.

Lemma read_join_rules_ok (room_id : string) (w : world DB) :
  readable hs (db w) room_id ->
  exists jr t, read_join_rules hs room_id w = (Returned jr, w, t).
Proof.
  intros (ids & Hids & Hev). unfold read_join_rules.
  unfold bind at 1. rewrite (read_ok _ _ w ids Hids).
  destruct (ids !! (EventTypes_JoinRules, EmptyString)) as [ev |] eqn:Hkey.
  - destruct (Hev ev eq_refl) as [event Hevent].
    unfold bind. rewrite (read_ok _ _ w event Hevent).
    unfold ret. eexists _, _. reflexivity.
  - unfold ret. eexists _, _. reflexivity.
Qed.

Lemma check_loop_ok (rooms : list string) :
  forall (acc : gset string) (w : world DB),
    (forall room_id, In room_id rooms -> readable hs (db w) room_id) ->
    exists acc' t, foldM (check_room hs) acc rooms w = (Returned acc', w, t).
Proof.
  induction rooms as [| room_id rest IH]; intros acc w Hread.
  - exists acc, []. reflexivity.
  - destruct (read_join_rules_ok room_id w (Hread _ (or_introl eq_refl)))
      as (jr & t1 & Hjr).
    destruct (IH (if negb (is_public jr) then {[ room_id ]} ∪ acc else acc) w)
      as (acc' & t2 & Hrest).
    { intros r Hr. apply Hread. right. exact Hr. }
    exists acc'. eexists. simpl. unfold bind at 1. unfold check_room at 1.
    unfold bind at 1. rewrite Hjr.
    destruct (negb (is_public jr)); unfold ret; rewrite Hrest; reflexivity.
Qed.

(** X7. When the requester is an authenticated admin, the space id
    resolves, the target is a local user and the reads of memberships,
    hierarchy and join rules succeed, the request is answered with 200,
    whatever [update_membership] does. *)
Theorem answered_with_200_whatever_update_membership_does
    (request space_id user_id : string) (w : world DB)
    (requester : Requester) (resolved : string * list string)
    (target : UserID) (user_rooms : list string)
    (hierarchy : list (string * list string) * list string) :
  get_user_by_req hs (db w) request = inr requester ->
  assert_user_is_admin hs (db w) (user requester) = None ->
  resolve_room_id hs (db w) space_id = inr resolved ->
  UserID_from_string hs user_id = inr target ->
  is_mine hs target = true ->
  get_rooms_for_local_user_where_membership_is hs (db w) user_id
    [Membership_INVITE; Membership_JOIN; Membership_KNOCK] = inr user_rooms ->
  get_room_descendants hs (db w) (fst resolved) = inr hierarchy ->
  (forall room_id,
      room_id = fst resolved \/ In room_id (map fst (fst hierarchy)) ->
      In room_id user_rooms ->
      readable hs (db w) room_id) ->
  exists body,
    ended (on_DELETE hs request space_id user_id w) = Returned (200, body).
Proof.
  intros Hreq Hadm Hres Hparse Hmine Hrooms Hdesc Hread.
  unfold on_DELETE.
  rewrite (ended_bind _ _ _ _ _ _ (read_ok _ _ w requester Hreq)).
  assert (Hadm' : call_assert_user_is_admin hs (user requester) w
                  = (Returned tt, w, [EvAssertAdmin])).
  { unfold call_assert_user_is_admin, bind, emit, get, ret. simpl.
    rewrite Hadm. reflexivity. }
  rewrite (ended_bind _ _ _ _ _ _ Hadm').
  rewrite (ended_bind _ _ _ _ _ _ (read_ok _ _ w resolved Hres)).
  cbv beta zeta.
  assert (Htgt : lift (E := event) (of_sum (UserID_from_string hs user_id)) w
                 = (Returned target, w, [])).
  { unfold lift. rewrite Hparse. reflexivity. }
  rewrite (ended_bind _ _ _ _ _ _ Htgt).
  rewrite Hmine. simpl.
  rewrite (ended_bind _ _ _ _ _ _ (read_ok _ _ w user_rooms Hrooms)).
  rewrite (ended_bind _ _ _ _ _ _ (read_ok _ _ w hierarchy Hdesc)).
  destruct (check_loop_ok
              (elements
                 ((({[ fst resolved ]} ∪ list_to_set (map fst (fst hierarchy)))
                   ∩ list_to_set user_rooms) : gset string))
              {[ fst resolved ]} w) as (to_leave & t7 & Hcheck).
  { intros room_id Hin.
    apply list_elem_of_In, elem_of_elements in Hin.
    rewrite elem_of_intersection, elem_of_union, elem_of_singleton,
      !elem_of_list_to_set, !list_elem_of_In in Hin.
    destruct Hin as [Hhier Huser]. exact (Hread room_id Hhier Huser). }
  rewrite (ended_bind _ _ _ _ _ _ Hcheck).
  destruct (failures_loop_spec (snd hierarchy) ∅ w)
    as (failures & heap1 & Hfail & _).
  rewrite (ended_bind _ _ _ _ _ _ Hfail).
  rewrite (ended_bind _ _ _ _ _ _ (leave_loop_exact hs _ _ _ _ _ _)).
  eexists. reflexivity.
Qed.
End Answers.

(** ** The scenario, run again *)


(** X5 on the scenario. *)
Lemma left_witness_space_and_c :
  NoDup (left example_reply)
  /\ (In "!c" (left example_reply)
      <-> In ("!c", Membership_LEAVE, None)
             (updates (events (on_DELETE example_hs "admin-token" "!space"
                                 alice example_world)))).
Proof.
  destruct (left_lists_exactly_the_rooms_whose_leave_succeeded
              example_hs "admin-token" "!space" alice example_world 200
              example_reply example_request_answered)
    as (Hnd & Hmem & _ & _).
  split; [exact Hnd | exact (Hmem "!c")].
Defined.

(** X6 on the scenario: a requester who is not an admin. *)
Lemma error_witness_not_admin :
  ended (on_DELETE example_hs "carol-token" "!space" alice example_world)
  = Raised (SynapseError 403 "You are not a server admin")
  /\ final (on_DELETE example_hs "carol-token" "!space" alice example_world)
     = example_world.
Proof.
  assert (Hrun : ended (on_DELETE example_hs "carol-token" "!space" alice
                          example_world)
                 = Raised (SynapseError 403 "You are not a server admin"))
    by (vm_compute; reflexivity).
  split; [exact Hrun |].
  exact (proj1 (an_error_reply_means_no_membership_was_changed example_hs
                  "carol-token" "!space" alice example_world _ Hrun)).
Defined.

Lemma example_rooms_readable (room_id : string) :
  readable example_hs (db example_world) room_id.
Proof.
  unfold readable. simpl.
  destruct (String.eqb room_id "!a") eqn:Ha.
  { eexists. split; [reflexivity |].
    intros ev. rewrite lookup_singleton_eq. intros [= <-].
    eexists. reflexivity. }
  destruct (String.eqb room_id "!b") eqn:Hb.
  { eexists. split; [reflexivity |].
    intros ev. rewrite lookup_singleton_eq. intros [= <-].
    eexists. reflexivity. }
  eexists. split; [reflexivity |].
  intros ev. rewrite lookup_empty. discriminate.
Qed.

(** X7 on the scenario. *)
Lemma answered_witness_admin_request :
  exists body,
    ended (on_DELETE example_hs "admin-token" "!space" alice example_world)
    = Returned (200, body).
Proof.
  refine (answered_with_200_whatever_update_membership_does example_hs
            "admin-token" "!space" alice example_world
            _ _ _ _ _ eq_refl eq_refl eq_refl eq_refl eq_refl eq_refl eq_refl
            _).
  intros room_id _ _. apply example_rooms_readable.
Defined.

End RoomHierarchyExtraProofs.

(** * Connection, listeners, start-up: proofs *)

Module WorkerProofs.

Import Mon Worker.
Local Open Scope py_scope.

Section Connection.
Variable env : Env.

Lemma db_params_lookup (args : gmap string json) (k : string) :
  filter (fun kv : string * json => String.prefix "cp_" (fst kv) = false)
         args !! k
  = if String.prefix "cp_" k then None else args !! k.
Proof.
  destruct (String.prefix "cp_" k) eqn:Hp.
  - apply map_lookup_filter_None. right. intros x _. simpl.
    rewrite Hp. discriminate.
  - destruct (args !! k) as [v |] eqn:Hk.
    + apply map_lookup_filter_Some. split; [exact Hk | exact Hp].
    + apply map_lookup_filter_None. left. exact Hk.
Qed.

(** X8. [get_db_conn] calls the engine's [connect] once, with the
    entries of [db_config["args"]] whose key does not start with [cp_]
    (with nothing when there is no [args]); only when [connect] hands back
    a connection and [run_new_connection] is set is [on_new_connection]
    called, once, with that connection. *)
Theorem get_db_conn_keeps_cp_parameters_from_the_engine
    (db_config args : gmap string json) (run_new_connection : bool)
    (w : world) :
  dict_get db_config "args" (JObj ∅) = JObj args ->
  exists db_params,
    connects (events (get_db_conn env db_config run_new_connection w))
    = [db_params]
    /\ (forall k,
          db_params !! k
          = if String.prefix "cp_" k then None else args !! k)
    /\ final (get_db_conn env db_config run_new_connection w) = w
    /\ match connect env db_params with
       | inl e =>
           ended (get_db_conn env db_config run_new_connection w) = Raised e
           /\ new_connections
                (events (get_db_conn env db_config run_new_connection w)) = []
       | inr c =>
           new_connections
             (events (get_db_conn env db_config run_new_connection w))
           = (if run_new_connection then [c] else [])
           /\ ended (get_db_conn env db_config run_new_connection w)
              = if run_new_connection
                then match on_new_connection env c with
                     | None => Returned c
                     | Some e => Raised e
                     end
                else Returned c
       end.
Proof.
  intros Hargs.
  exists (filter (fun kv : string * json =>
                    String.prefix "cp_" (fst kv) = false) args).
  unfold get_db_conn. rewrite Hargs.
  unfold bind, lift, emit, ret, raise, ended, final, events. simpl.
  destruct (connect env _) as [e | c]; simpl.
  - split; [reflexivity |]. split; [apply db_params_lookup |]. auto.
  - destruct run_new_connection; simpl.
    + destruct (on_new_connection env c) as [e |]; simpl;
        (split; [reflexivity |]; split; [apply db_params_lookup |]; auto).
    + split; [reflexivity |]. split; [apply db_params_lookup |]. auto.
Qed.

(** ** The metrics resource *)

Lemma add_names_lookup (acc resources : gmap string resource) (res : json) :
  add_names env acc res = Returned resources ->
  (is_Some (resources !! METRICS_PREFIX env)
   <-> is_Some (acc !! METRICS_PREFIX env) \/ names_metrics res)
  /\ forall k, k <> METRICS_PREFIX env -> resources !! k = acc !! k.
Proof.
  unfold add_names, names_metrics.
  destruct (py_getitem res "names") as [names_v | e |] eqn:Hnames_v;
    try discriminate.
  destruct (py_iter names_v) as [names | e |] eqn:Hnames; try discriminate.
  intros [= <-].
  assert (Hfold : forall (l : list json) (a : gmap string resource),
             (is_Some
                (fold_left
                   (fun resources name =>
                      if is_str name "metrics"
                      then <[METRICS_PREFIX env := MetricsResource]> resources
                      else resources) l a !! METRICS_PREFIX env)
              <-> is_Some (a !! METRICS_PREFIX env)
                  \/ exists name, In name l /\ is_str name "metrics" = true)
             /\ forall k, k <> METRICS_PREFIX env ->
                  fold_left
                    (fun resources name =>
                       if is_str name "metrics"
                       then <[METRICS_PREFIX env := MetricsResource]> resources
                       else resources) l a !! k = a !! k).
  { induction l as [| name l IH]; intros a; simpl.
    - split; [| reflexivity]. split; [auto |].
      intros [? | (? & [] & _)]. assumption.
    - destruct (IH (if is_str name "metrics"
                    then <[METRICS_PREFIX env := MetricsResource]> a
                    else a)) as [Hiff Hother].
      split.
      + rewrite Hiff. destruct (is_str name "metrics") eqn:Hname.
        * rewrite lookup_insert_eq. split; [| eauto].
          intros _. right. exists name. auto.
        * split.
          -- intros [? | (n & Hin & Hn)]; [auto |]. right. exists n. auto.
          -- intros [? | (n & [-> | Hin] & Hn)]; [auto | congruence |].
             right. exists n. auto.
      + intros k Hk. rewrite (Hother k Hk).
        destruct (is_str name "metrics"); [| reflexivity].
        apply lookup_insert_ne. congruence. }
  destruct (Hfold names acc) as [Hiff Hother].
  split; [| exact Hother].
  rewrite Hiff. split.
  - intros [? | (name & Hin & Hname)]; [auto |].
    right. exists names_v, names, name.
    split; [reflexivity |]. split; [exact Hnames |]. split; assumption.
  - intros [? | (names_v' & names' & name & [= <-] & Hiter & Hin & Hname)];
      [auto |].
    rewrite Hnames in Hiter. injection Hiter as <-.
    right. exists name. auto.
Qed.

Lemma collect_resources_lookup (entries : list json) :
  forall acc resources : gmap string resource,
    collect_resources env acc entries = Returned resources ->
    (is_Some (resources !! METRICS_PREFIX env)
     <-> is_Some (acc !! METRICS_PREFIX env) \/ Exists names_metrics entries)
    /\ forall k, k <> METRICS_PREFIX env -> resources !! k = acc !! k.
Proof.
  induction entries as [| res rest IH]; intros acc resources; simpl.
  - intros [= <-]. split; [| reflexivity]. split; [auto |].
    intros [? | Hex]; [assumption | inversion Hex].
  - destruct (add_names env acc res) as [acc1 | e |] eqn:Hadd;
      try discriminate.
    intros Hrest.
    destruct (add_names_lookup _ _ _ Hadd) as [Hiff1 Hother1].
    destruct (IH _ _ Hrest) as [Hiff2 Hother2].
    split.
    + rewrite Hiff2, Hiff1, Exists_cons. tauto.
    + intros k Hk. rewrite (Hother2 k Hk). exact (Hother1 k Hk).
Qed.

(** X9. The resources a site is built from: the metrics resource is
    there exactly when some entry of [resources] names [metrics], under
    [METRICS_PREFIX]; there is no other resource. *)
Theorem metrics_resource_exactly_when_named
    (entries : list json) (resources : gmap string resource) :
  collect_resources env ∅ entries = Returned resources ->
  (resources !! METRICS_PREFIX env = Some MetricsResource
   <-> Exists names_metrics entries)
  /\ forall k, k <> METRICS_PREFIX env -> resources !! k = None.
Proof.
  intros Hrun.
  destruct (collect_resources_lookup entries ∅ resources Hrun)
    as [Hiff Hother].
  split.
  - split.
    + intros Hsome.
      destruct (proj1 Hiff (ex_intro _ _ Hsome)) as [[x Hx] | Hex];
        [| exact Hex].
      rewrite lookup_empty in Hx. discriminate.
    + intros Hex. destruct (proj2 Hiff (or_intror Hex)) as [[] Hx].
      exact Hx.
  - intros k Hk. rewrite (Hother k Hk). apply lookup_empty.
Qed.
End Connection.

(** ** Listeners *)

Lemma bind_step {W E A B} (m : Mon.M W E A) (k : A -> Mon.M W E B)
    (w w1 w2 : W) (a : A) (r : outcome B) (t t1 t2 : list E) :
  m w = (Returned a, w1, t1) ->
  k a w1 = (r, w2, t2) ->
  t = t1 ++ t2 ->
  bind m k w = (r, w2, t).
Proof. intros Hm Hk ->. unfold bind. rewrite Hm, Hk. reflexivity. Qed.

Lemma bind_silent {W E A B} (m : Mon.M W E A) (k : A -> Mon.M W E B)
    (w w1 w2 : W) (a : A) (r : outcome B) (t : list E) :
  m w = (Returned a, w1, []) ->
  k a w1 = (r, w2, t) ->
  bind m k w = (r, w2, t).
Proof. intros Hm Hk. unfold bind. rewrite Hm, Hk. reflexivity. Qed.

Lemma bind_fails {W E A B} (m : Mon.M W E A) (k : A -> Mon.M W E B)
    (w w1 : W) (e : exn) (t : list E) :
  m w = (Raised e, w1, t) -> bind m k w = (Raised e, w1, t).
Proof. intros Hm. unfold bind. rewrite Hm. reflexivity. Qed.

Section Listeners.
Variable env : Env.
Hypothesis Hbinds : binds_always env.

Lemma the_listener_spec (i : nat) (w : world) (l : gmap string json) :
  listeners w !! i = Some l -> the_listener i w = (Returned l, w, []).
Proof.
  intros Hl. unfold the_listener, bind, get, ret. simpl. rewrite Hl.
  reflexivity.
Qed.

Lemma call_listenTCP_spec (port : json) (f : factory) (interface : json)
    (w : world) :
  call_listenTCP env port f interface w
  = (Returned tt, World (listeners w) (bound w ++ [(port, interface)]),
     [EvListenTCP port f interface]).
Proof.
  unfold call_listenTCP, bind, emit, get, put. simpl.
  rewrite Hbinds. reflexivity.
Qed.

Lemma appended_unchanged (l : gmap string json) :
  is_None (dict_get l "bind_address" JNull) = true
  \/ l !! "bind_addresses" = None ->
  appended l = l.
Proof.
  unfold appended. intros [Hnone | Hkey].
  - rewrite Hnone. destruct (l !! "bind_addresses") as [[] |]; reflexivity.
  - rewrite Hkey. reflexivity.
Qed.

Lemma same_world (w : world) (i : nat) (l : gmap string json) :
  listeners w !! i = Some l ->
  World (<[i := l]> (listeners w)) (bound w) = w.
Proof.
  intros Hl. destruct w as [ls b]. simpl in *.
  rewrite list_insert_id by exact Hl. reflexivity.
Qed.

Lemma append_bind_address_spec (i : nat) (w : world) (l : gmap string json) :
  listeners w !! i = Some l ->
  (exists items, dict_get l "bind_addresses" (JArr []) = JArr items) ->
  append_bind_address i l w
  = (Returned (JArr (addresses_of l)),
     World (<[i := appended l]> (listeners w)) (bound w), []).
Proof.
  intros Hl [items Hitems].
  unfold append_bind_address, addresses_of. rewrite Hitems.
  destruct (is_None (dict_get l "bind_address" JNull)) eqn:Hnone.
  - rewrite app_nil_r, appended_unchanged by (left; exact Hnone).
    rewrite (same_world w i l Hl). reflexivity.
  - destruct (l !! "bind_addresses") as [v |] eqn:Hkey.
    + unfold dict_get in Hitems. rewrite Hkey in Hitems. simpl in Hitems.
      subst v. unfold appended. rewrite Hkey, Hnone.
      unfold bind, get, put, ret. reflexivity.
    + rewrite appended_unchanged by (right; exact Hkey).
      rewrite (same_world w i l Hl). reflexivity.
Qed.

Lemma site_loop (i : nat) (port : json) (name : string) (tag : json)
    (resources : gmap string resource) (l' : gmap string json)
    (addresses : list json) :
  forall (ls : list (gmap string json)) (b : list (json * json)),
    ls !! i = Some l' ->
    foldM (fun (_ : unit) address =>
             config_now <~ the_listener i ;;
             call_listenTCP env port
               (SynapseSite name tag config_now resources) address)
          tt addresses (World ls b)
    = (Returned tt,
       World ls (b ++ map (fun a => (port, a)) addresses),
       map (fun a => EvListenTCP port (SynapseSite name tag l' resources) a)
           addresses).
Proof.
  induction addresses as [| a rest IH]; intros ls b Hl.
  - simpl. unfold ret. rewrite app_nil_r. reflexivity.
  - simpl.
    replace (b ++ (port, a) :: map (fun a => (port, a)) rest)
      with ((b ++ [(port, a)]) ++ map (fun a => (port, a)) rest)
      by (rewrite <- app_assoc; reflexivity).
    eapply bind_step.
    + eapply bind_step.
      * apply the_listener_spec. exact Hl.
      * apply call_listenTCP_spec.
      * reflexivity.
    + simpl. apply IH. exact Hl.
    + reflexivity.
Qed.

Lemma manhole_loop (l : gmap string json) (port : json)
    (addresses : list json) :
  (addresses <> [] -> l !! "port" = Some port) ->
  forall (ls : list (gmap string json)) (b : list (json * json)),
    foldM (fun (_ : unit) address =>
             port <~ lift (dict_getitem l "port") ;;
             call_listenTCP env port (manhole "matrix" "rabbithole") address)
          tt addresses (World ls b)
    = (Returned tt,
       World ls (b ++ map (fun a => (port, a)) addresses),
       map (fun a => EvListenTCP port (manhole "matrix" "rabbithole") a)
           addresses).
Proof.
  intros Hport.
  induction addresses as [| a rest IH]; intros ls b.
  - simpl. unfold ret. rewrite app_nil_r. reflexivity.
  - assert (Hp : l !! "port" = Some port) by (apply Hport; discriminate).
    simpl.
    replace (b ++ (port, a) :: map (fun a => (port, a)) rest)
      with ((b ++ [(port, a)]) ++ map (fun a => (port, a)) rest)
      by (rewrite <- app_assoc; reflexivity).
    eapply bind_step.
    + eapply bind_step.
      * unfold lift, dict_getitem. rewrite Hp. reflexivity.
      * apply call_listenTCP_spec.
      * reflexivity.
    + simpl. apply IH. intros _. exact Hp.
    + reflexivity.
Qed.

(** One listener. *)
Lemma start_listener_spec (i : nat) (w : world) (l : gmap string json) :
  listeners w !! i = Some l ->
  listener_ok env l ->
  start_listener env i w
  = (Returned tt,
     World (<[i := started l]> (listeners w))
       (bound w ++ endpoints (plan env l)),
     listen_events (plan env l) ++ logs l).
Proof.
  intros Hl ([type Htype] & Hitems & Hhttp & Hmanhole).
  assert (Hget : dict_get l "type" JNull = type)
    by (unfold dict_get; rewrite Htype; reflexivity).
  assert (Hitem : lift (E := event) (dict_getitem l "type") w
                  = (Returned type, w, [])).
  { unfold lift, dict_getitem. rewrite Htype. reflexivity. }
  assert (Hi : (<[i := appended l]> (listeners w)) !! i = Some (appended l)).
  { apply list_lookup_insert_eq. apply (lookup_lt_Some _ _ _ Hl). }
  unfold start_listener, plan, logs, started. rewrite Hget in *.
  eapply bind_silent; [apply the_listener_spec; exact Hl |].
  eapply bind_silent; [exact Hitem |].
  destruct (is_str type "http") eqn:Hishttp.
  - destruct (Hhttp eq_refl)
      as ([port Hport] & resources_v & entries & resources
          & Hres & Hiter & Hcollect).
    assert (Hp : dict_get l "port" JNull = port)
      by (unfold dict_get; rewrite Hport; reflexivity).
    assert (Hr : dict_get l "resources" JNull = resources_v)
      by (unfold dict_get; rewrite Hres; reflexivity).
    rewrite Hp, Hr, Hiter, Hcollect.
    unfold endpoints, listen_events. rewrite !map_map. simpl.
    unfold listen_http.
    eapply bind_silent; [apply the_listener_spec; exact Hl |].
    eapply bind_silent;
      [unfold lift, dict_getitem; rewrite Hport; reflexivity |].
    eapply bind_silent;
      [unfold lift, dict_getitem; rewrite Hres; reflexivity |].
    eapply bind_silent; [unfold lift; rewrite Hiter; reflexivity |].
    eapply bind_silent; [unfold lift; rewrite Hcollect; reflexivity |].
    eapply bind_silent;
      [apply (append_bind_address_spec i w l Hl Hitems) |].
    eapply bind_silent; [unfold lift; simpl; reflexivity |].
    eapply bind_step; [apply site_loop; exact Hi | | reflexivity].
    reflexivity.
  - eapply bind_silent; [exact Hitem |].
    destruct (is_str type "manhole") eqn:Hismanhole.
    + unfold endpoints, listen_events.
      rewrite !map_map, app_nil_r. simpl.
      unfold listen_manhole.
      eapply bind_silent; [apply the_listener_spec; exact Hl |].
      eapply bind_silent;
        [apply (append_bind_address_spec i w l Hl Hitems) |].
      eapply bind_silent; [unfold lift; simpl; reflexivity |].
      apply manhole_loop.
      intros Hne. destruct (Hmanhole eq_refl eq_refl Hne) as [port Hport].
      unfold dict_get. rewrite Hport. reflexivity.
    + eapply bind_silent; [exact Hitem |].
      unfold emit, endpoints. simpl. rewrite app_nil_r.
      rewrite (same_world w i l Hl). reflexivity.
Qed.

Lemma listeners_loop (suf : list (gmap string json)) :
  forall (pre : list (gmap string json)) (b : list (json * json)),
    Forall (listener_ok env) suf ->
    foldM (fun (_ : unit) i => start_listener env i) tt
          (seq (length pre) (length suf)) (World (pre ++ suf) b)
    = (Returned tt,
       World (pre ++ map started suf)
         (b ++ endpoints (concat (map (plan env) suf))),
       concat (map (fun l => listen_events (plan env l) ++ logs l) suf)).
Proof.
  induction suf as [| l suf IH]; intros pre b Hok.
  - simpl. unfold ret. rewrite !app_nil_r. reflexivity.
  - apply Forall_cons in Hok as [Hl Hsuf].
    change (seq (length pre) (length (l :: suf)))
      with (length pre :: seq (Datatypes.S (length pre)) (length suf)).
    cbn [foldM map concat].
    replace (pre ++ started l :: map started suf)
      with ((pre ++ [started l]) ++ map started suf)
      by (rewrite <- app_assoc; reflexivity).
    replace (b ++ endpoints (plan env l ++ concat (map (plan env) suf)))
      with ((b ++ endpoints (plan env l))
            ++ endpoints (concat (map (plan env) suf)))
      by (unfold endpoints; rewrite map_app, app_assoc; reflexivity).
    eapply bind_step.
    + apply start_listener_spec; [| exact Hl].
      simpl. apply list_lookup_middle. reflexivity.
    + simpl.
      replace (<[length pre := started l]> (pre ++ l :: suf))
        with ((pre ++ [started l]) ++ suf).
      * replace (Datatypes.S (length pre)) with (length (pre ++ [started l]))
          by (rewrite length_app; simpl; lia).
        apply IH. exact Hsuf.
      * rewrite <- app_assoc. simpl.
        replace (length pre) with (length pre + 0)%nat at 1 by lia.
        rewrite insert_app_r. reflexivity.
    + reflexivity.
Qed.

Lemma listened_listen_events (binds : list (json * factory * json)) :
  listened (listen_events binds) = binds.
Proof.
  induction binds as [| [[p f] a] rest IH]; [reflexivity |].
  simpl. f_equal. exact IH.
Qed.

Lemma listened_logs (l : gmap string json) : listened (logs l) = [].
Proof.
  unfold logs.
  destruct (is_str (dict_get l "type" JNull) "http"); [reflexivity |].
  destruct (is_str (dict_get l "type" JNull) "manhole"); reflexivity.
Qed.

Lemma listened_of_listeners (ls : list (gmap string json)) :
  listened (concat (map (fun l => listen_events (plan env l) ++ logs l) ls))
  = concat (map (plan env) ls).
Proof.
  induction ls as [| l ls IH]; [reflexivity |].
  simpl. unfold listened in *. rewrite !omap_app, IH.
  fold (listened (listen_events (plan env l))). fold (listened (logs l)).
  rewrite listened_listen_events, listened_logs, app_nil_r. reflexivity.
Qed.

Lemma start_listening_spec (w : world) :
  Forall (listener_ok env) (listeners w) ->
  start_listening env w
  = (Returned tt,
     World (map started (listeners w))
       (bound w ++ endpoints (concat (map (plan env) (listeners w)))),
     concat (map (fun l => listen_events (plan env l) ++ logs l)
                 (listeners w))).
Proof.
  intros Hok. unfold start_listening.
  eapply bind_silent; [reflexivity |].
  destruct w as [ls b]. simpl.
  exact (listeners_loop ls [] b Hok).
Qed.
End Listeners.

(** X10. With listener dictionaries the code gets through and a reactor
    that binds, [start_listening] returns normally; it calls [listenTCP]
    listener by listener, for each one on its [bind_addresses] in order and
    then on its [bind_address], with a site (tag, or port when there is no
    tag, and the collected resources) for an [http] listener and the
    manhole for a [manhole] listener; a listener of another type is only
    warned about; and it leaves [bind_address] appended to the
    [bind_addresses] list of every [http] or [manhole] dictionary that has
    both. *)
Theorem start_listening_binds_bind_addresses_then_bind_address
    (env : Env) (w : world) :
  binds_always env ->
  Forall (listener_ok env) (listeners w) ->
  ended (start_listening env w) = Returned tt
  /\ listened (events (start_listening env w))
     = concat (map (plan env) (listeners w))
  /\ events (start_listening env w)
     = concat (map (fun l => listen_events (plan env l) ++ logs l)
                   (listeners w))
  /\ bound (final (start_listening env w))
     = bound w ++ endpoints (concat (map (plan env) (listeners w)))
  /\ listeners (final (start_listening env w))
     = map started (listeners w).
Proof.
  intros Hbinds Hok. rewrite (start_listening_spec env Hbinds w Hok).
  unfold ended, events, final. simpl.
  split; [reflexivity |].
  split; [apply listened_of_listeners |].
  auto.
Qed.

(** ** Start-up *)

Section Start.
Variable env : Env.

(** X11. [start] gives up before anything is opened: a [ConfigError] is
    written to stderr and ends in [SystemExit(1)]; a configuration for
    another worker fails the assertion; and when [notify_appservices] is
    still set, no database connection is made, no port is bound and
    nothing is scheduled, and [start] ends in [SystemExit(1)] with the
    explanation on stderr once logging and the engine are set up. *)
Theorem start_gives_up_before_connecting_or_listening
    (config_options : list string) (w : world) :
  match load_config env config_options with
  | LoadRaised e =>
      ended (start env config_options w) = Raised e
      /\ events (start env config_options w) = []
  | ConfigError message =>
      ended (start env config_options w) = Returned (SystemExit 1)
      /\ events (start env config_options w)
         = [EvStderr (String "010"
                        (String.append message (String "010" EmptyString)))]
  | Loaded config =>
      (is_str (worker_app config) "synapse.app.appservice" = false ->
       ended (start env config_options w) = Returned AssertionError
       /\ events (start env config_options w) = [])
      /\ (is_str (worker_app config) "synapse.app.appservice" = true ->
          notify_appservices config = true ->
          connects (events (start env config_options w)) = []
          /\ listened (events (start env config_options w)) = []
          /\ scheduled (events (start env config_options w)) = 0%nat
          /\ reactor_runs (events (start env config_options w)) = 0%nat
          /\ final (start env config_options w) = w
          /\ (setup_logging env (worker_log_config config)
                (worker_log_file config) = None ->
              create_engine env (database_config config) = None ->
              ended (start env config_options w) = Returned (SystemExit 1)
              /\ stderr (events (start env config_options w))
                 = [notify_appservices_msg]))
  end.
Proof.
  unfold start.
  destruct (load_config env config_options) as [config | message | e].
  - split.
    + intros Happ. rewrite Happ. simpl. split; reflexivity.
    + intros Happ Hnotify. rewrite Happ, Hnotify. simpl.
      unfold bind, emit, lift, ret, ended, events, final. simpl.
      destruct (setup_logging env (worker_log_config config)
                  (worker_log_file config)) as [e1 |]; simpl.
      { do 5 (split; [reflexivity |]). intros [=]. }
      destruct (create_engine env (database_config config)) as [e2 |]; simpl.
      { do 5 (split; [reflexivity |]). intros _ [=]. }
      do 5 (split; [reflexivity |]). intros _ _. split; reflexivity.
  - unfold bind, emit, ret, ended, events. simpl. split; reflexivity.
  - unfold raise, ended, events. simpl. split; reflexivity.
Qed.

Lemma get_db_conn_spec (db_config args : gmap string json)
    (c : nat) (w : world) :
  dict_get db_config "args" (JObj ∅) = JObj args ->
  connect env
    (filter (fun kv : string * json => String.prefix "cp_" (fst kv) = false)
            args) = inr c ->
  on_new_connection env c = None ->
  get_db_conn env db_config true w
  = (Returned c, w,
     [EvConnect
        (filter (fun kv : string * json =>
                   String.prefix "cp_" (fst kv) = false) args);
      EvOnNewConnection c]).
Proof.
  intros Hargs Hconnect Hnew. unfold get_db_conn. rewrite Hargs.
  unfold bind, lift, emit, ret. simpl. rewrite Hconnect. simpl.
  rewrite Hnew. reflexivity.
Qed.

Lemma bind_ret {W E A B} (m : Mon.M W E A) (b : B)
    (w w1 : W) (a : A) (t : list E) :
  m w = (Returned a, w1, t) ->
  bind m (fun _ => ret b) w = (Returned b, w1, t).
Proof.
  intros Hm. unfold bind, ret. rewrite Hm, app_nil_r. reflexivity.
Qed.

Lemma setup_spec (db_config args : gmap string json) (c : nat) (w : world) :
  dict_get db_config "args" (JObj ∅) = JObj args ->
  connect env
    (filter (fun kv : string * json => String.prefix "cp_" (fst kv) = false)
            args) = inr c ->
  on_new_connection env c = None ->
  setup env db_config w
  = (Returned tt, w,
     [EvInfo "Setting up." [];
      EvConnect
        (filter (fun kv : string * json =>
                   String.prefix "cp_" (fst kv) = false) args);
      EvOnNewConnection c; EvNewStore c;
      EvInfo "Finished setting up." []]).
Proof.
  intros Hargs Hconnect Hnew. unfold setup.
  eapply bind_step; [reflexivity | | reflexivity].
  eapply bind_step;
    [exact (get_db_conn_spec _ _ _ _ Hargs Hconnect Hnew) | | reflexivity].
  reflexivity.
Qed.

Lemma daemon_run_spec (config : Config) (w : world) :
  (if worker_daemonize config
   then bind (emit (EvDaemonStart (worker_pid_file config)))
             (fun _ => run config)
   else run config) w
  = (Returned tt, w, run_events config).
Proof.
  unfold run, run_events, bind, emit, ret.
  destruct (worker_daemonize config); destruct (truthy (gc_thresholds config));
    reflexivity.
Qed.

Lemma start_spec (config_options : list string) (config : Config)
    (args : gmap string json) (c : nat) (w : world) :
  load_config env config_options = Loaded config ->
  is_str (worker_app config) "synapse.app.appservice" = true ->
  notify_appservices config = false ->
  setup_logging env (worker_log_config config) (worker_log_file config)
  = None ->
  create_engine env (database_config config) = None ->
  dict_get (database_config config) "args" (JObj ∅) = JObj args ->
  connect env
    (filter (fun kv : string * json => String.prefix "cp_" (fst kv) = false)
            args) = inr c ->
  on_new_connection env c = None ->
  binds_always env ->
  Forall (listener_ok env) (worker_listeners config) ->
  start env config_options w
  = (Returned ReactorStopped,
     World (map started (worker_listeners config))
       (bound w
        ++ endpoints (concat (map (plan env) (worker_listeners config)))),
     EvSetupLogging (worker_log_config config) (worker_log_file config)
     :: EvUseFrozenDicts (use_frozen_dicts config)
     :: EvCreateEngine (database_config config)
     :: EvNewServer (server_name config)
          (String.append "Synapse/" (version_string env)) true
     :: EvInfo "Setting up." []
     :: EvConnect
          (filter (fun kv : string * json =>
                     String.prefix "cp_" (fst kv) = false) args)
     :: EvOnNewConnection c
     :: EvNewStore c
     :: EvInfo "Finished setting up." []
     :: (concat (map (fun l => listen_events (plan env l) ++ logs l)
                     (worker_listeners config))
         ++ EvCallWhenRunning :: run_events config)).
Proof.
  intros Hload Happ Hnotify Hlog Hengine Hargs Hconnect Hnew Hbinds Hok.
  unfold start. rewrite Hload, Happ, Hnotify, Hlog, Hengine.
  cbn [negb].
  eapply bind_step; [reflexivity | | reflexivity].
  eapply bind_silent; [reflexivity |].
  eapply bind_step; [reflexivity | | reflexivity].
  eapply bind_step; [reflexivity | | reflexivity].
  eapply bind_silent; [reflexivity |].
  eapply bind_step; [reflexivity | | reflexivity].
  eapply bind_step;
    [exact (setup_spec _ _ _ _ Hargs Hconnect Hnew) | | reflexivity].
  eapply bind_silent; [reflexivity |].
  eapply bind_silent; [reflexivity |].
  eapply bind_step;
    [exact (start_listening_spec env Hbinds
              (World (worker_listeners config) (bound w)) Hok)
    | | reflexivity].
  eapply bind_step; [reflexivity | | reflexivity].
  eapply bind_ret. apply daemon_run_spec.
Qed.

(** X12. With a configuration for this worker, [notify_appservices] off,
    a database that connects and listeners that bind, [start] runs to the
    reactor: it connects once, without the [cp_] parameters, and announces
    the connection to the engine; then binds every listener; then
    schedules the replication, once; then runs the reactor. *)
Theorem start_connects_then_listens_then_schedules_replication
    (config_options : list string) (config : Config)
    (args : gmap string json) (c : nat) (w : world) :
  load_config env config_options = Loaded config ->
  is_str (worker_app config) "synapse.app.appservice" = true ->
  notify_appservices config = false ->
  setup_logging env (worker_log_config config) (worker_log_file config)
  = None ->
  create_engine env (database_config config) = None ->
  dict_get (database_config config) "args" (JObj ∅) = JObj args ->
  connect env
    (filter (fun kv : string * json => String.prefix "cp_" (fst kv) = false)
            args) = inr c ->
  on_new_connection env c = None ->
  binds_always env ->
  Forall (listener_ok env) (worker_listeners config) ->
  ended (start env config_options w) = Returned ReactorStopped
  /\ listeners (final (start env config_options w))
     = map started (worker_listeners config)
  /\ exists before after,
       events (start env config_options w)
       = before
         ++ [EvConnect
               (filter (fun kv : string * json =>
                          String.prefix "cp_" (fst kv) = false) args);
             EvOnNewConnection c; EvNewStore c;
             EvInfo "Finished setting up." []]
         ++ concat (map (fun l => listen_events (plan env l) ++ logs l)
                        (worker_listeners config))
         ++ [EvCallWhenRunning] ++ after
       /\ connects before = [] /\ listened before = []
       /\ scheduled before = 0%nat
       /\ connects after = [] /\ listened after = []
       /\ scheduled after = 0%nat /\ reactor_runs after = 1%nat.
Proof.
  intros Hload Happ Hnotify Hlog Hengine Hargs Hconnect Hnew Hbinds Hok.
  rewrite (start_spec config_options config args c w Hload Happ Hnotify Hlog
             Hengine Hargs Hconnect Hnew Hbinds Hok).
  unfold ended, final, events. simpl.
  split; [reflexivity |]. split; [reflexivity |].
  eexists [_; _; _; _; _], (run_events config).
  split; [reflexivity |].
  unfold run_events.
  destruct (worker_daemonize config); destruct (truthy (gc_thresholds config));
    repeat split.
Qed.

Lemma setup_fails (db_config args : gmap string json) (e : exn) (w : world) :
  dict_get db_config "args" (JObj ∅) = JObj args ->
  connect env
    (filter (fun kv : string * json => String.prefix "cp_" (fst kv) = false)
            args) = inl e
  \/ (exists c,
        connect env
          (filter (fun kv : string * json =>
                     String.prefix "cp_" (fst kv) = false) args) = inr c
        /\ on_new_connection env c = Some e) ->
  exists t,
    setup env db_config w = (Raised e, w, EvInfo "Setting up." [] :: t)
    /\ listened t = [] /\ scheduled t = 0%nat /\ reactor_runs t = 0%nat.
Proof.
  intros Hargs Hfail. unfold setup, get_db_conn. rewrite Hargs.
  unfold bind, lift, emit, ret, raise. simpl.
  destruct Hfail as [Hc | (c & Hc & Hn)]; rewrite Hc; simpl.
  - eexists. split; [reflexivity |]. split; [reflexivity |].
    split; reflexivity.
  - rewrite Hn. simpl. eexists. split; [reflexivity |].
    split; [reflexivity |]. split; reflexivity.
Qed.

(** X15. When the database engine's [connect] raises, or
    [on_new_connection] raises on the new connection, [start] ends with
    that exception before [start_listening]: no [listenTCP], no
    [callWhenRunning], no [reactor.run], and the listener dictionaries are
    as they were. *)
Theorem start_without_a_database_connection_binds_nothing
    (config_options : list string) (config : Config)
    (args : gmap string json) (e : exn) (w : world) :
  load_config env config_options = Loaded config ->
  is_str (worker_app config) "synapse.app.appservice" = true ->
  notify_appservices config = false ->
  setup_logging env (worker_log_config config) (worker_log_file config)
  = None ->
  create_engine env (database_config config) = None ->
  dict_get (database_config config) "args" (JObj ∅) = JObj args ->
  connect env
    (filter (fun kv : string * json => String.prefix "cp_" (fst kv) = false)
            args) = inl e
  \/ (exists c,
        connect env
          (filter (fun kv : string * json =>
                     String.prefix "cp_" (fst kv) = false) args) = inr c
        /\ on_new_connection env c = Some e) ->
  ended (start env config_options w) = Raised e
  /\ listened (events (start env config_options w)) = []
  /\ scheduled (events (start env config_options w)) = 0%nat
  /\ reactor_runs (events (start env config_options w)) = 0%nat
  /\ final (start env config_options w) = w.
Proof.
  intros Hload Happ Hnotify Hlog Hengine Hargs Hfail.
  destruct (setup_fails (database_config config) args e w Hargs Hfail)
    as (t & Hsetup & Hl & Hs & Hr).
  assert (Hrun : start env config_options w
                 = (Raised e, w,
                    EvSetupLogging (worker_log_config config)
                      (worker_log_file config)
                    :: EvUseFrozenDicts (use_frozen_dicts config)
                    :: EvCreateEngine (database_config config)
                    :: EvNewServer (server_name config)
                         (String.append "Synapse/" (version_string env)) true
                    :: EvInfo "Setting up." [] :: t)).
  { unfold start. rewrite Hload, Happ, Hnotify, Hlog, Hengine.
    cbn [negb].
    eapply bind_step; [reflexivity | | reflexivity].
    eapply bind_silent; [reflexivity |].
    eapply bind_step; [reflexivity | | reflexivity].
    eapply bind_step; [reflexivity | | reflexivity].
    eapply bind_silent; [reflexivity |].
    eapply bind_step; [reflexivity | | reflexivity].
    apply bind_fails. exact Hsetup. }
  rewrite Hrun. unfold ended, events, final. cbn [fst snd].
  split; [reflexivity |]. split; [exact Hl |]. split; [exact Hs |].
  split; [exact Hr | reflexivity].
Qed.
End Start.

(** ** Listeners that cannot be started *)

Lemma is_str_type (l : gmap string json) (s : string) :
  is_str (dict_get l "type" JNull) s = true -> l !! "type" = Some (JStr s).
Proof.
  unfold dict_get. destruct (l !! "type") as [[| b | n | s' | items | fields] |];
    simpl; try discriminate.
  intros Heq. apply String.eqb_eq in Heq. subst s'. reflexivity.
Qed.

Section Refusals.
Variable env : Env.

(** X13. An [http] listener without a [port], or with a [port] but
    without [resources], ends its turn of the loop of [start_listening]
    with the [KeyError] of
    the missing key ([port] is looked up first) before anything is bound
    or logged and before [bind_address] is appended: the listener
    dictionaries are as they were. *)
Theorem http_listener_without_port_or_resources_is_left_untouched
    (i : nat) (w : world) (l : gmap string json) :
  listeners w !! i = Some l ->
  is_str (dict_get l "type" JNull) "http" = true ->
  l !! "port" = None \/ l !! "resources" = None ->
  ended (start_listener env i w)
  = Raised (KeyError match l !! "port" with
                     | Some _ => "resources"
                     | None => "port"
                     end)
  /\ events (start_listener env i w) = []
  /\ final (start_listener env i w) = w.
Proof.
  intros Hl Hhttp Hmiss.
  pose proof (is_str_type l "http" Hhttp) as Htype.
  assert (Hrun : start_listener env i w
                 = (Raised (KeyError match l !! "port" with
                                     | Some _ => "resources"
                                     | None => "port"
                                     end), w, [])).
  { unfold start_listener.
    eapply bind_silent; [apply the_listener_spec; exact Hl |].
    eapply bind_silent;
      [unfold lift, dict_getitem; rewrite Htype; reflexivity |].
    simpl. unfold listen_http.
    eapply bind_silent; [apply the_listener_spec; exact Hl |].
    destruct (l !! "port") as [port |] eqn:Hport.
    - destruct Hmiss as [[=] | Hres].
      eapply bind_silent;
        [unfold lift, dict_getitem; rewrite Hport; reflexivity |].
      apply bind_fails. unfold lift, dict_getitem. rewrite Hres.
      reflexivity.
    - apply bind_fails. unfold lift, dict_getitem. rewrite Hport.
      reflexivity. }
  rewrite Hrun. auto.
Qed.

Lemma site_loop_refused (i : nat) (port : json) (name : string) (tag : json)
    (resources : gmap string resource) (l' : gmap string json)
    (a : json) (post : list json) (e : exn) (pre : list json) :
  forall (ls : list (gmap string json)) (b : list (json * json)),
    ls !! i = Some l' ->
    (forall b' x, In x pre -> listenTCP env b' port x = None) ->
    listenTCP env (b ++ map (fun x => (port, x)) pre) port a = Some e ->
    foldM (fun (_ : unit) address =>
             config_now <~ the_listener i ;;
             call_listenTCP env port
               (SynapseSite name tag config_now resources) address)
          tt (pre ++ a :: post) (World ls b)
    = (Raised e,
       World ls (b ++ map (fun x => (port, x)) pre),
       map (fun x => EvListenTCP port (SynapseSite name tag l' resources) x)
           (pre ++ [a])).
Proof.
  induction pre as [| x pre IH]; intros ls b Hl Hpre Ha.
  - simpl in *. rewrite app_nil_r in *.
    apply bind_fails.
    eapply bind_silent; [apply the_listener_spec; exact Hl |].
    unfold call_listenTCP, bind, emit, get, raise. simpl.
    rewrite Ha. reflexivity.
  - cbn [app foldM map].
    replace (b ++ (port, x) :: map (fun x => (port, x)) pre)
      with ((b ++ [(port, x)]) ++ map (fun x => (port, x)) pre)
      by (rewrite <- app_assoc; reflexivity).
    eapply bind_step.
    + eapply bind_silent; [apply the_listener_spec; exact Hl |].
      unfold call_listenTCP, bind, emit, get, put. simpl.
      rewrite (Hpre b x (or_introl eq_refl)). reflexivity.
    + apply IH.
      * exact Hl.
      * intros b' y Hy. apply Hpre. right. exact Hy.
      * rewrite <- app_assoc. exact Ha.
    + reflexivity.
Qed.

(** X14. When the reactor refuses an address of an [http] listener, the
    exception leaves the listener's turn of the loop of
    [start_listening]: the addresses before it stay
    bound, the refused [listenTCP] is the last call, the line
    [now listening on port] is not logged, and [bind_address] has already
    been appended to the dictionary's [bind_addresses]. *)
Theorem refused_bind_keeps_earlier_binds_and_the_appended_address
    (i : nat) (w : world) (l : gmap string json) (port resources_v : json)
    (entries : list json) (resources : gmap string resource)
    (pre : list json) (a : json) (post : list json) (e : exn) :
  listeners w !! i = Some l ->
  is_str (dict_get l "type" JNull) "http" = true ->
  l !! "port" = Some port ->
  l !! "resources" = Some resources_v ->
  py_iter resources_v = Returned entries ->
  collect_resources env ∅ entries = Returned resources ->
  addresses_of l = pre ++ a :: post ->
  (forall b x, In x pre -> listenTCP env b port x = None) ->
  listenTCP env (bound w ++ map (fun x => (port, x)) pre) port a = Some e ->
  ended (start_listener env i w) = Raised e
  /\ events (start_listener env i w)
     = map (fun x =>
              EvListenTCP port
                (SynapseSite
                   (String.append "synapse.access.http."
                      (py_str env (dict_get l "tag" port)))
                   (dict_get l "tag" port) (appended l) resources) x)
           (pre ++ [a])
  /\ bound (final (start_listener env i w))
     = bound w ++ map (fun x => (port, x)) pre
  /\ listeners (final (start_listener env i w))
     = <[i := appended l]> (listeners w).
Proof.
  intros Hl Hhttp Hport Hres Hiter Hcollect Haddr Hpre Ha.
  pose proof (is_str_type l "http" Hhttp) as Htype.
  assert (Hitems : exists items,
             dict_get l "bind_addresses" (JArr []) = JArr items).
  { unfold addresses_of in Haddr.
    destruct (dict_get l "bind_addresses" (JArr []));
      try (destruct pre; discriminate).
    eexists. reflexivity. }
  assert (Hi : (<[i := appended l]> (listeners w)) !! i = Some (appended l)).
  { apply list_lookup_insert_eq. apply (lookup_lt_Some _ _ _ Hl). }
  assert (Hrun : start_listener env i w
                 = (Raised e,
                    World (<[i := appended l]> (listeners w))
                      (bound w ++ map (fun x => (port, x)) pre),
                    map (fun x =>
                           EvListenTCP port
                             (SynapseSite
                                (String.append "synapse.access.http."
                                   (py_str env (dict_get l "tag" port)))
                                (dict_get l "tag" port) (appended l)
                                resources) x)
                        (pre ++ [a]))).
  { unfold start_listener.
    eapply bind_silent; [apply the_listener_spec; exact Hl |].
    eapply bind_silent;
      [unfold lift, dict_getitem; rewrite Htype; reflexivity |].
    simpl. unfold listen_http.
    eapply bind_silent; [apply the_listener_spec; exact Hl |].
    eapply bind_silent;
      [unfold lift, dict_getitem; rewrite Hport; reflexivity |].
    eapply bind_silent;
      [unfold lift, dict_getitem; rewrite Hres; reflexivity |].
    eapply bind_silent; [unfold lift; rewrite Hiter; reflexivity |].
    eapply bind_silent; [unfold lift; rewrite Hcollect; reflexivity |].
    eapply bind_silent; [apply (append_bind_address_spec i w l Hl Hitems) |].
    eapply bind_silent; [unfold lift; simpl; reflexivity |].
    rewrite Haddr. apply bind_fails.
    apply site_loop_refused; [exact Hi | exact Hpre | exact Ha]. }
  rewrite Hrun. unfold ended, events, final. simpl. auto.
Qed.
End Refusals.

(** ** The worker's scenario, run *)

Lemma example_binds_always : binds_always example_env.
Proof. intros b p a. reflexivity. Qed.

Lemma example_listeners_ok :
  Forall (listener_ok example_env)
         [http_listener; odd_listener; manhole_listener].
Proof.
  apply Forall_cons; split; [| apply Forall_cons; split;
                                 [| apply Forall_cons; split;
                                      [| apply Forall_nil; exact I]]].
  - split; [eexists; vm_compute; reflexivity |].
    split; [eexists; vm_compute; reflexivity |].
    split.
    + intros _. split; [eexists; vm_compute; reflexivity |].
      eexists _, _, _. split; [vm_compute; reflexivity |].
      split; vm_compute; reflexivity.
    + intros Hnot. vm_compute in Hnot. discriminate.
  - split; [eexists; vm_compute; reflexivity |].
    split; [eexists; vm_compute; reflexivity |].
    split.
    + intros Hhttp. vm_compute in Hhttp. discriminate.
    + intros _ Hmanhole. vm_compute in Hmanhole. discriminate.
  - split; [eexists; vm_compute; reflexivity |].
    split; [eexists; vm_compute; reflexivity |].
    split.
    + intros Hhttp. vm_compute in Hhttp. discriminate.
    + intros _ _ _. eexists. vm_compute. reflexivity.
Qed.

(** X8 on the scenario: [cp_min] and [cp_max] do not reach [connect]. *)
Lemma get_db_conn_witness_cp_parameters :
  connects (events (get_db_conn example_env example_db_config true
                      example_world))
  = [{[ "database" := JStr "synapse" ]}]
  /\ new_connections (events (get_db_conn example_env example_db_config true
                                example_world)) = [1%nat].
Proof.
  destruct (get_db_conn_keeps_cp_parameters_from_the_engine example_env
              example_db_config
              (<["database" := JStr "synapse"]>
                 (<["cp_min" := JNum 5]> {[ "cp_max" := JNum 10 ]}))
              true example_world)
    as (db_params & Hconnects & _ & _ & Hnew).
  { vm_compute. reflexivity. }
  split; [vm_compute; reflexivity |].
  simpl in Hnew. exact (proj1 Hnew).
Defined.

(** X9 on the scenario. *)
Lemma metrics_witness_named :
  collect_resources example_env ∅
    [JObj {[ "names" := JArr [JStr "client"; JStr "metrics"] ]}]
  = Returned {[ "/_synapse/metrics" := MetricsResource ]}
  /\ Exists names_metrics
       [JObj {[ "names" := JArr [JStr "client"; JStr "metrics"] ]}].
Proof.
  assert (Hrun : collect_resources example_env ∅
                   [JObj {[ "names" := JArr [JStr "client"; JStr "metrics"] ]}]
                 = Returned {[ "/_synapse/metrics" := MetricsResource ]})
    by (vm_compute; reflexivity).
  split; [exact Hrun |].
  apply (proj1 (metrics_resource_exactly_when_named example_env _ _ Hrun)).
  vm_compute. reflexivity.
Defined.

(** X10 on the scenario: an [http] listener with both [bind_addresses]
    and [bind_address], a listener of unknown type and a manhole. *)
Lemma start_listening_witness_three_listeners :
  bound (final (start_listening example_env example_world))
  = [(JNum 8009, JStr "::1"); (JNum 8009, JStr "127.0.0.1");
     (JNum 9000, JStr "127.0.0.1")]
  /\ warned (events (start_listening example_env example_world))
     = [[JStr "replication"]]
  /\ ended (start_listening example_env example_world) = Returned tt.
Proof.
  destruct (start_listening_binds_bind_addresses_then_bind_address
              example_env example_world example_binds_always
              example_listeners_ok)
    as (Hended & _ & _ & Hbound & _).
  split; [rewrite Hbound; vm_compute; reflexivity |].
  split; [vm_compute; reflexivity | exact Hended].
Defined.

(** X11 on the scenario: the main process still notifies. *)
Lemma start_witness_main_still_notifies :
  ended (start env_main_notifies [] example_world)
  = Returned (SystemExit 1)
  /\ connects (events (start env_main_notifies [] example_world)) = []
  /\ listened (events (start env_main_notifies [] example_world)) = [].
Proof.
  pose proof (start_gives_up_before_connecting_or_listening
                env_main_notifies [] example_world) as Hstart.
  simpl in Hstart.
  destruct Hstart as [_ Hnotify].
  destruct (Hnotify eq_refl eq_refl) as (Hc & Hl & _ & _ & _ & Hexit).
  split; [exact (proj1 (Hexit eq_refl eq_refl)) |].
  split; [exact Hc | exact Hl].
Defined.

(** X12 on the scenario. *)
Lemma start_witness_reaches_the_reactor :
  ended (start example_env ["-c"; "appservice.yaml"] example_world)
  = Returned ReactorStopped
  /\ connects (events (start example_env ["-c"; "appservice.yaml"]
                         example_world))
     = [{[ "database" := JStr "synapse" ]}].
Proof.
  destruct (start_connects_then_listens_then_schedules_replication
              example_env ["-c"; "appservice.yaml"] _
              (<["database" := JStr "synapse"]>
                 (<["cp_min" := JNum 5]> {[ "cp_max" := JNum 10 ]}))
              1%nat example_world
              eq_refl eq_refl eq_refl eq_refl eq_refl)
    as (Hended & _).
  - vm_compute. reflexivity.
  - reflexivity.
  - reflexivity.
  - exact example_binds_always.
  - exact example_listeners_ok.
  - split; [exact Hended | vm_compute; reflexivity].
Defined.

(** X13 on the scenario: the port was left out. *)
Lemma portless_witness_key_error :
  ended (start_listener example_env 0 (World [portless_listener] []))
  = Raised (KeyError "port")
  /\ final (start_listener example_env 0 (World [portless_listener] []))
     = World [portless_listener] [].
Proof.
  destruct (http_listener_without_port_or_resources_is_left_untouched
              example_env 0 (World [portless_listener] []) portless_listener
              eq_refl eq_refl (or_introl eq_refl))
    as (Hended & _ & Hfinal).
  split; [exact Hended | exact Hfinal].
Defined.

(** X14 on the scenario: [::1] is bound, [127.0.0.1] is refused. *)
Lemma refused_witness_address_in_use :
  ended (start_listener env_address_in_use 0 example_world)
  = Raised (OtherError "Address already in use")
  /\ bound (final (start_listener env_address_in_use 0 example_world))
     = [(JNum 8009, JStr "::1")]
  /\ listeners (final (start_listener env_address_in_use 0 example_world))
     !! 0%nat
     = Some (<["bind_addresses" := JArr [JStr "::1"; JStr "127.0.0.1"]]>
               http_listener).
Proof.
  destruct (refused_bind_keeps_earlier_binds_and_the_appended_address
              env_address_in_use 0 example_world http_listener
              (JNum 8009)
              (JArr [JObj {[ "names" := JArr [JStr "client"; JStr "metrics"] ]}])
              [JObj {[ "names" := JArr [JStr "client"; JStr "metrics"] ]}]
              {[ "/_synapse/metrics" := MetricsResource ]}
              [JStr "::1"] (JStr "127.0.0.1") []
              (OtherError "Address already in use"))
    as (Hended & _ & Hbound & Hlisteners).
  - reflexivity.
  - vm_compute. reflexivity.
  - vm_compute. reflexivity.
  - vm_compute. reflexivity.
  - reflexivity.
  - vm_compute. reflexivity.
  - vm_compute. reflexivity.
  - intros b x [<- | []]. reflexivity.
  - reflexivity.
  - split; [exact Hended |]. split; [exact Hbound |].
    rewrite Hlisteners. vm_compute. reflexivity.
Defined.

(** X15 on the scenario: the database is down. *)
Lemma start_witness_database_down :
  ended (start env_database_down ["-c"; "appservice.yaml"] example_world)
  = Raised (OtherError "could not connect to server")
  /\ listened (events (start env_database_down ["-c"; "appservice.yaml"]
                         example_world)) = [].
Proof.
  destruct (start_without_a_database_connection_binds_nothing
              env_database_down ["-c"; "appservice.yaml"] _
              (<["database" := JStr "synapse"]>
                 (<["cp_min" := JNum 5]> {[ "cp_max" := JNum 10 ]}))
              (OtherError "could not connect to server") example_world
              eq_refl eq_refl eq_refl eq_refl eq_refl)
    as (Hended & Hlistened & _).
  - vm_compute. reflexivity.
  - left. reflexivity.
  - split; [exact Hended | exact Hlistened].
Defined.

End WorkerProofs.
